(* ===== verification/_CoqProject ===== *)
-Q . S2P
Prelude.v
Flag.v
Config.v
Runtime.v
Checker.v
Notifier.v
Main.v
Machine.v
