(* ===== verification/Prelude.v ===== *)
(** * A verification library for vps-uptime (src/main.go)

    ** The program

    vps-uptime is a one-shot uptime checker written in Go, in one file of
    96 lines.  [main] reads a YAML configuration ([os.ReadFile], then
    [yaml.Unmarshal] into the global [var conf Config]), builds an
    [http.Client] whose transport skips TLS certificate verification, sends
    one [GET] with the configured [User-Agent] to each configured server,
    in the order of the configuration, and collects failure strings in
    [msg]: ["<Label> is seems down."] when the request fails, that entry
    and ["Invalid Status Code"] when the status line is not exactly
    ["200 OK"].  Every response body is drained and closed.  When [msg] is
    not empty, [sendPushover] sends one Pushover notification with the
    entries joined by ["<br>"].  Every unexpected error (file, YAML, URL,
    body drain, Pushover) goes through [log.Fatalln]: exit status 1.  The
    file name comes from the command line: [flag.StringVar] defines
    [-config] (default [conf.yaml]) and [flag.Parse] reads [os.Args[1:]],
    exiting with status 0 on a help request and 2 on a bad command line.

    ** The files

    - Prelude.v (this file): Go's [(value, error)] as [result]; how a
      computation ends ([exit]: [Normal], or [Fatal] for [log.Fatalln]);
      the state and error monad [GoM] with [let*] in [go_scope]; the
      [for ... range] loop [forRange]; [strings.Join] as [strings_Join];
      the rewrite database [go], the hint database [uptime] and the tactic
      [go_simpl]; generic lemmas on strings and [mjoin].
    - Flag.v: the flag package as lines 37-38 use it: a [FlagSet] with its
      formal and actual flags, the arguments left and the variable each
      flag is bound to; [StringVar] (the package's [Var]), [parseOne]
      (one flag in its one- or two-minus, [-name value] and [-name=value]
      forms, [--] and a positional argument ending the flags, [-h] and
      [-help] asking for help) and [FlagSet_Parse], the loop of [Parse]
      with [ExitOnError] on fuel; [flag_Parse] gives it enough.  The
      command lines of the theorems are written with [render_arg], the
      four spellings of a [-config] setting.
    - Config.v: the structs [servers], [pushoverCredential], [Config]
      (lines 17-31) and their zero values; the key of a field for yaml.v3
      ([yaml_key]: the tag, else the lower-cased field name); YAML nodes
      with the resolved tags of their scalars; yaml.v3's decoding of a
      parsed document onto [conf], function by function ([mapping] with
      its duplicate-key check, [mappingStruct] with [doneFields],
      [unmarshal_string], [unmarshal_struct], [unmarshal_slice] and
      [sequence_items] with yaml.v3's handling of nulls and of items
      that do not decode, [terror]), and [yaml_Unmarshal], which returns
      the [TypeError] of the errors met; the typing judgement [has_type]
      of documents against the schema [ty_Config] the structs declare;
      [encode_Config], the document that writes a configuration.
    - Runtime.v: the library values ([http_Client], [http_Request],
      [http_Response], [pushover_Message], ...), the I/O log ([event]),
      the program state [St] (the global [conf], the outside world, the
      log), and the class [Runtime]: the operations of the outside world
      the program calls (file system, YAML parser, URL parsing,
      [client.Do], draining and closing a body, the Pushover API).  Each
      call of the program is a monadic operation ([ReadFile], [Do],
      [CopyDiscard], [Close], [SendMessage], [Unmarshal],
      [http_NewRequest]) that asks the world and logs the call with its
      answer.  [scripted] is an instance whose answers are lists fixed in
      advance; the examples run on it.
    - Checker.v: the loop body [check_server] (lines 57-75) and the loop
      [check_servers] (lines 55-76); the abstract view of a check: a
      [verdict] per answer and the failure list [expected_msg] of the
      verdicts.
    - Notifier.v: [sendPushover] (lines 85-97) and the notification step
      [notify] (lines 77-82).
    - Main.v: [main] (lines 40-83), the process [run_main] (zero [conf],
      empty log), its [exit_code], and [run_program], the whole process
      on its command line: lines 37-38 through Flag.v, then [run_main] on
      the file named.
    - Machine.v: lines 40-82 as a state machine over their phases
      ([Reading], [Decoding], [Checking] with the servers left,
      [Notifying], [Exited]): a deterministic step relation whose loading
      steps call the [Runtime] operations directly and whose loop and
      notification steps are one call of the loop body or of [notify];
      [eventually], the all-runs reachability of a condition, for the
      liveness theorem.

    Every theorem about the program holds for every instance of [Runtime]:
    the world may answer anything, and differently at each call.

    ** What is proved

    - The loop refines the abstract failure list: a loop that ends
      normally sent one request per server, in order, with the user agent,
      and built [expected_msg] of the verdicts of the answers (Checker,
      C2); a loop that ends fatally stopped at one server and never
      contacted the later ones (C4).  Each branch of the loop body is
      described exactly (C6-C10).
    - A normal run sends exactly one notification iff the failure list is
      not empty, with the entries joined by ["<br>"] (Main, C1); a
      configuration error is fatal before any request (C3); a fatal run
      delivers no notification (C5), in particular a body-drain error
      drops the failures already found; no server, or a configuration
      written with the spec's capitalised keys, means no check and exit 0
      (C11, C12); every request skips certificate verification (C15); the
      I/O log of a normal run is the file read, one block per server in
      order (each response body drained then closed before the next
      request), then at most one notification (C17); a run sends at most
      one request per configured server and at most one notification,
      carrying between one and two entries per server (C27, bounds).
    - The notification step makes one Pushover call with the fixed title,
      priority 0 and HTML (Notifier, C14); the configuration schema round
      trips through [encode_Config] (Config, C13).
    - Every configuration of the state machine reachable from the start
      satisfies the run invariant [inv] (Machine, C16), proved by rule
      induction; once the loop has recorded a failure, every run
      eventually reports it or dies (C28, liveness).
    - [yaml.Unmarshal] into [conf] returns no error exactly on the
      documents of type [ty_Config] (Config, C18): distinct keys in every
      mapping, any scalar for a string field, nulls allowed for the list
      and the credentials, other keys free.
    - The command line (Flag): the fuelled model of [flag.Parse] is the
      unbounded loop (C19); a command line of [-config] settings in any
      spelling, then nothing, a positional argument or [--], gives the
      last setting (C20); help requests exit 0 (C21), a missing value
      (C22) or an undefined flag (C23) exits 2 with the package's
      message.  The process (Main) on such a command line is [run_main]
      on the file named (C24, refinement); a help request exits 0 before
      any I/O (C25); on every command line the process ends, with status
      0 and no I/O exactly for a help request, 2 and no I/O exactly for
      a command line the package rejects, and otherwise the status of
      [run_main] on the file named (C26).

    ** Bounds and fuel

    The program's own loop ranges over the configured servers, so its
    model is structurally recursive and total.  Whether a run ends is not
    a theorem of the development: [client.Do] and [io.Copy] are
    operations of [Runtime] that always answer, whereas the program's
    [new(http.Client)] has no timeout and can wait forever on a server
    that does not answer.  The loop of [flag.Parse] ends when [parseOne]
    reads no flag; each round that reads one consumes at least one
    argument ([parseOne_seen]), so [flag_Parse] runs it on one round more
    than there are arguments, and C19 proves that this fuel is enough and
    that more fuel gives the same outcome; [run_program] returns [None]
    only when the fuel runs out, which C26 rules out.  Integers (status
    codes, byte counts, the priority, exit statuses) are [Z]; the program
    does no arithmetic on them.

    ** Not modelled

    The YAML text parser (scalar resolution, explicit tags, anchors,
    aliases, merge keys) and the line numbers of yaml.v3's messages; the
    flag package's usage text and its flag kinds other than strings; the
    HTTP transport (redirects, timeouts, TLS), the status line's parsing
    and the header canonicalisation of net/http; the Pushover API's own
    validation of messages and tokens.  They are operations of [Runtime]
    or outside the program: every theorem holds whatever they answer, but
    an operation that never answers (a request to a server that hangs,
    with no client timeout) is outside the model.
    The imports (lines 1-15) have no behaviour of their own.

    ** Further work

    - the values [yaml_Unmarshal] decodes from a well-typed document, as
      a function of the document alone (the denotation of [has_type]);
    - the state machine extended with the command-line phase;
    - the hang of a request without timeout, as a world whose operations
      may not answer (interaction trees). *)

From Stdlib Require Import String.
From stdpp Require Import base list strings.

Declare Scope go_scope.
Delimit Scope go_scope with go.

(** ** Go's [(value, error)] results *)

(** The library functions the program calls return a value and an error;
    a non-nil error is [Err e], otherwise the value is [Ok a]. *)
Inductive result (A E : Type) : Type :=
| Ok (a : A)
| Err (e : E).
Arguments Ok {A E} a.
Arguments Err {A E} e.

(** ** How a computation ends *)

(** [Fatal m] is [log.Fatalln(err)]: the message [m] is logged and the
    process exits with status 1; nothing after it runs. *)
Inductive exit (A : Type) : Type :=
| Normal (a : A)
| Fatal (msg : string).
Arguments Normal {A} a.
Arguments Fatal {A} msg.

(** ** The state and error monad *)

Definition GoM (S A : Type) : Type := S -> exit A * S.

Definition ret {S A} (a : A) : GoM S A := fun s => (Normal a, s).

Definition bind {S A B} (m : GoM S A) (k : A -> GoM S B) : GoM S B :=
  fun s =>
    match m s with
    | (Normal a, s') => k a s'
    | (Fatal e, s') => (Fatal e, s')
    end.

Definition fatal {S A} (msg : string) : GoM S A := fun s => (Fatal msg, s).

Definition get {S} : GoM S S := fun s => (Normal s, s).

Definition modify {S} (f : S -> S) : GoM S unit := fun s => (Normal tt, f s).

Notation "'let*' x ':=' m 'in' k" := (bind m (fun x => k))
  (at level 10, x name, m at level 100, k at level 200) : go_scope.

Open Scope go_scope.

(** [for _, i := range xs { acc = body(i, acc) }]: the bodies run in the
    order of [xs], each on the state the previous one left; a fatal body
    ends the loop and the computation. *)
Fixpoint forRange {S A B} (body : A -> B -> GoM S B) (xs : list A) (acc : B)
  : GoM S B :=
  match xs with
  | [] => ret acc
  | x :: xs' => let* acc' := body x acc in forRange body xs' acc'
  end.

(** ** [strings.Join] *)

(** Go's [strings.Join(elems, sep)]: [""] for no element, the element
    itself for one, and the elements separated by [sep] otherwise. *)
Fixpoint strings_Join (elems : list string) (sep : string) : string :=
  match elems with
  | [] => ""
  | [e] => e
  | e :: rest => e +:+ sep +:+ strings_Join rest sep
  end.

(** * Lemmas *)

Create HintDb uptime discriminated.
Create Rewrite HintDb go.

Section Monad.
Context {S : Type}.

Lemma bind_ret_l {A B} (a : A) (k : A -> GoM S B) : bind (ret a) k = k a.
Proof. reflexivity. Qed.

Lemma bind_fatal {A B} (e : string) (k : A -> GoM S B) :
  bind (fatal e) k = fatal e.
Proof. reflexivity. Qed.

Lemma bind_run_normal {A B} (m : GoM S A) (k : A -> GoM S B) s a s' :
  m s = (Normal a, s') -> bind m k s = k a s'.
Proof. unfold bind. by intros ->. Qed.

Lemma bind_run_fatal {A B} (m : GoM S A) (k : A -> GoM S B) s e s' :
  m s = (Fatal e, s') -> bind m k s = (Fatal e, s').
Proof. unfold bind. by intros ->. Qed.

End Monad.

#[export] Hint Rewrite @bind_ret_l @bind_fatal @app_nil_l @app_nil_r : go.

Section Join.
(** stdpp makes [String.append] [simpl never]; this is its step. *)
Lemma string_app_cons ch (a b : string) : String ch a +:+ b = String ch (a +:+ b).
Proof. reflexivity. Qed.

Lemma string_app_assoc (a b c : string) : (a +:+ b) +:+ c = a +:+ (b +:+ c).
Proof. induction a as [|ch a IH]; [done|by rewrite !string_app_cons, IH]. Qed.

Lemma string_app_nil_r (a : string) : a +:+ "" = a.
Proof. induction a as [|ch a IH]; [done|by rewrite !string_app_cons, IH]. Qed.

Lemma mjoin_cons {A} (x : list A) (l : list (list A)) : mjoin (x :: l) = x ++ mjoin l.
Proof. done. Qed.

End Join.

#[export] Hint Rewrite string_app_assoc string_app_nil_r : go.

(** [go_simpl] runs a monadic computation on a concrete or symbolic
    state as far as the definitions compute. *)
Ltac go_simpl :=
  repeat (progress (cbv [bind ret fatal get modify] in *;
                    autorewrite with go in *)).
