(* ===== verification/Flag.v ===== *)
(** * The command line (src/main.go, lines 34 and 37-38)

    [main] starts with [flag.StringVar(&confFile, "config", "conf.yaml",
    "config filename")] and [flag.Parse()]: the flag package's
    [CommandLine] set, created with [ExitOnError], gets one string flag and
    parses [os.Args[1:]].  The model follows the package's [Var],
    [parseOne] and [Parse]:
    - a [FlagSet] holds its formal flags, the flags actually set, the
      arguments left, and the variable each flag is bound to ([vars],
      keyed by the flag's name: [confFile] is [vars !! "config"]);
    - [parseOne] reads one flag off the arguments, in its one-minus,
      two-minus, [-name=value] and [-name value] forms; a non-flag argument
      or ["--"] ends the flags; [-h] and [-help] not being defined ask for
      help; an unknown flag or a missing value is an error;
    - [Parse] loops on [parseOne] and, with [ExitOnError], ends the process
      with status 0 on a help request and 2 on an error.
    The loop consumes at least one argument per flag it reads; it runs on
    fuel, and [flag_Parse] gives it one round more than there are
    arguments, which is enough (the termination theorem below). *)

From Stdlib Require Import String Ascii ZArith.
From stdpp Require Import base list strings gmap.
From S2P Require Import Prelude.

#[local] Set Warnings "-clear-no-such-hyp".

(** ** The package's data *)

(** [flag.ErrHelp] and the errors built by [failf]. *)
#[warnings="-register-all"]
Inductive flag_error :=
| ErrHelp
| ErrFlag (msg : string).

(** [type Flag struct { Name, Usage string; Value Value; DefValue string }]
    for a string flag: its value lives in the bound variable. *)
Record Flag := mk_Flag { Name : string; Usage : string; DefValue : string }.

(** The fields of [FlagSet] that parsing reads and writes. *)
Record FlagSet := mk_FlagSet {
  parsed : bool;
  formal : gmap string Flag;
  actual : gmap string Flag;
  args : list string;
  vars : gmap string string
}.

(** [flag.NewFlagSet(os.Args[0], flag.ExitOnError)], as [CommandLine]. *)
Definition CommandLine : FlagSet := mk_FlagSet false ∅ ∅ [] ∅.

Definition set_args (f : FlagSet) (a : list string) : FlagSet :=
  mk_FlagSet (parsed f) (formal f) (actual f) a (vars f).

(** ** Defining the flag *)

Fixpoint string_contains_eq (s : string) : bool :=
  match s with
  | EmptyString => false
  | String c s' => Ascii.eqb c "=" || string_contains_eq s'
  end.

(** [f.StringVar(p, name, value, usage)], i.e. [f.Var(newStringValue(value,
    p), name, usage)]: the variable gets the default value; a name
    starting with ["-"] or containing ["="], or already defined, panics
    (the [Err] message). *)
Definition StringVar (name value usage : string) (f : FlagSet) : result FlagSet string :=
  let f1 := mk_FlagSet (parsed f) (formal f) (actual f) (args f) (<[name := value]> (vars f)) in
  if String.prefix "-" name then Err ("flag " +:+ name +:+ " begins with -")
  else if string_contains_eq name then Err ("flag " +:+ name +:+ " contains =")
  else match formal f !! name with
  | Some _ => Err ("flag redefined: " +:+ name)
  | None =>
      Ok (mk_FlagSet (parsed f1) (<[name := mk_Flag name usage value]> (formal f1))
                     (actual f1) (args f1) (vars f1))
  end.

(** ** Parsing *)

(** The loop [for i := 1; i < len(name); i++ { if name[i] == '=' ... }]
    on the part of the name after its first byte: the name up to the
    first ["="] and the value after it, if any. *)
Fixpoint split_at_eq (s : string) : string * option string :=
  match s with
  | EmptyString => (EmptyString, None)
  | String c s' =>
      if Ascii.eqb c "=" then (EmptyString, Some s')
      else let '(n, v) := split_at_eq s' in (String c n, v)
  end.

Definition name_and_value (name : string) : string * option string :=
  match name with
  | EmptyString => (EmptyString, None)
  | String c rest => let '(n, v) := split_at_eq rest in (String c n, v)
  end.

(** [f.parseOne()]: [(seen, err)] and the flag set after it. *)
Definition parseOne (f : FlagSet) : (bool * option flag_error) * FlagSet :=
  match args f with
  | [] => ((false, None), f)
  | s :: rest =>
      match s with
      | String c (String c1 tl) =>
          if negb (Ascii.eqb c "-") then ((false, None), f) else
          (* [numMinuses]; ["--"] alone terminates the flags *)
          let name := if Ascii.eqb c1 "-" then tl else String c1 tl in
          if Ascii.eqb c1 "-" && bool_decide (tl = EmptyString) then ((false, None), set_args f rest)
          else
          match name with
          | EmptyString => ((false, Some (ErrFlag ("bad flag syntax: " +:+ s))), f)
          | String c0 _ =>
              if Ascii.eqb c0 "-" || Ascii.eqb c0 "=" then
                ((false, Some (ErrFlag ("bad flag syntax: " +:+ s))), f)
              else
              let f1 := set_args f rest in
              let '(nm, hv) := name_and_value name in
              match formal f1 !! nm with
              | None =>
                  if String.eqb nm "help" || String.eqb nm "h" then ((false, Some ErrHelp), f1)
                  else ((false, Some (ErrFlag ("flag provided but not defined: -" +:+ nm))), f1)
              | Some fl =>
                  (* a string flag: the value is after [=] or the next argument *)
                  let vr := match hv with
                            | Some v => Some (v, args f1)
                            | None => match args f1 with
                                      | v :: rest' => Some (v, rest')
                                      | [] => None
                                      end
                            end in
                  match vr with
                  | None => ((false, Some (ErrFlag ("flag needs an argument: -" +:+ nm))), f1)
                  | Some (v, rest') =>
                      ((true, None), mk_FlagSet (parsed f1) (formal f1) (<[nm := fl]> (actual f1))
                                                rest' (<[nm := v]> (vars f1)))
                  end
              end
          end
      | _ => ((false, None), f)
      end
  end.

(** The loop of [f.Parse(arguments)] on [fuel] rounds: [None] when the
    fuel runs out, else the error that ended it, if any. *)
Fixpoint parse_loop (fuel : nat) (f : FlagSet) : option (option flag_error * FlagSet) :=
  match fuel with
  | O => None
  | S fuel' =>
      match parseOne f with
      | ((true, _), f') => parse_loop fuel' f'
      | ((false, err), f') => Some (err, f')
      end
  end.

(** What [Parse] does with [ExitOnError]: return, or [os.Exit]. *)
#[warnings="-register-all"]
Inductive parse_outcome :=
| Parsed (f : FlagSet)
| ExitWith (code : Z) (err : flag_error).

Definition FlagSet_Parse (fuel : nat) (arguments : list string) (f : FlagSet) : option parse_outcome :=
  let f0 := mk_FlagSet true (formal f) (actual f) arguments (vars f) in
  match parse_loop fuel f0 with
  | None => None
  | Some (None, f') => Some (Parsed f')
  | Some (Some ErrHelp, _) => Some (ExitWith 0 ErrHelp)
  | Some (Some e, _) => Some (ExitWith 2 e)
  end.

(** [flag.Parse()] on the arguments, with one round per argument and one
    more for the round that stops. *)
Definition flag_Parse (arguments : list string) (f : FlagSet) : option parse_outcome :=
  FlagSet_Parse (S (length arguments)) arguments f.

(** ** The flags of [main] *)

(** [flag.StringVar(&confFile, "config", "conf.yaml", "config filename")]
    on [CommandLine]. *)
Definition define_config (f : FlagSet) : result FlagSet string :=
  StringVar "config" "conf.yaml" "config filename" f.

(** [confFile] as a flag set holds it. *)
Definition confFile_of (f : FlagSet) : string := default "" (vars f !! "config").

(** The flag set once [config] is defined. *)
Definition config_flag : Flag := mk_Flag "config" "config filename" "conf.yaml".
Definition config_flags : FlagSet :=
  mk_FlagSet false {[ "config" := config_flag ]} ∅ [] {[ "config" := "conf.yaml" ]}.

(** ** Command lines *)

(** The four spellings of a [-config] setting: one or two minuses, the
    value as the next argument or after ["="]. *)
#[warnings="-register-all"]
Inductive config_arg :=
| ConfigNext (two : bool) (v : string)
| ConfigEq (two : bool) (v : string).

Definition minuses (two : bool) : string := if two then "--" else "-".

Definition render_arg (a : config_arg) : list string :=
  match a with
  | ConfigNext two v => [minuses two +:+ "config"; v]
  | ConfigEq two v => [minuses two +:+ "config=" +:+ v]
  end.

Definition arg_value (a : config_arg) : string :=
  match a with ConfigNext _ v | ConfigEq _ v => v end.

(** What follows the flags: nothing, a first positional argument, or the
    terminator ["--"]; the arguments left after the flags. *)
Definition stops_flags (rest : list string) : option (list string) :=
  match rest with
  | [] => Some []
  | s :: r =>
      match s with
      | String c0 (String c tl) =>
          if negb (Ascii.eqb c0 "-") then Some rest
          else if Ascii.eqb c "-" && bool_decide (tl = EmptyString) then Some r else None
      | _ => Some rest
      end
  end.

(** * Lemmas *)

(** A round of [parseOne] that reads a flag consumes at least one
    argument. *)
Lemma parseOne_seen f e f' :
  parseOne f = ((true, e), f') -> length (args f') < length (args f).
Proof.
  unfold parseOne. intros H.
  repeat (case_match; simplify_eq/=; try lia).
Qed.

Lemma parse_loop_enough fuel f :
  length (args f) < fuel -> exists r, parse_loop fuel f = Some r.
Proof.
  revert f. induction fuel as [|fuel IH]; intros f Hf; [lia|]. simpl.
  destruct (parseOne f) as [[[] err] f'] eqn:E; [|by eexists].
  apply IH. apply parseOne_seen in E. lia.
Qed.

Lemma parse_loop_S fuel f r :
  parse_loop fuel f = Some r -> parse_loop (S fuel) f = Some r.
Proof.
  revert f. induction fuel as [|fuel IH]; intros f; [done|]. simpl.
  destruct (parseOne f) as [[[] err] f']; [apply IH|done].
Qed.

Lemma parse_loop_mono fuel fuel' f r :
  fuel <= fuel' -> parse_loop fuel f = Some r -> parse_loop fuel' f = Some r.
Proof. induction 1; [done|]. intros Hr. by apply parse_loop_S, IHle. Qed.

(** [Parse] exits with status 0 on a help request and 2 otherwise. *)
Lemma flag_Parse_exit_code arguments f code e :
  flag_Parse arguments f = Some (ExitWith code e) ->
  (code = 0%Z /\ e = ErrHelp) \/ (code = 2%Z /\ e <> ErrHelp).
Proof. unfold flag_Parse, FlagSet_Parse. repeat case_match; naive_solver. Qed.

(** * Termination *)

(** C19. [flag.Parse] terminates: with one round more than there are
    arguments the loop has stopped, and any larger fuel gives the same
    outcome, so [flag_Parse] is the outcome of the unbounded loop. *)
Theorem flag_Parse_terminates arguments f fuel :
  length arguments < fuel ->
  exists o, flag_Parse arguments f = Some o /\ FlagSet_Parse fuel arguments f = Some o.
Proof.
  intros Hfuel. unfold flag_Parse, FlagSet_Parse.
  destruct (parse_loop_enough (S (length arguments))
              (mk_FlagSet true (formal f) (actual f) arguments (vars f))) as [r Hr]; [simpl; lia|].
  rewrite Hr, (parse_loop_mono (S (length arguments)) fuel _ _ ltac:(lia) Hr).
  destruct r as [[[|msg]|] f']; simpl; eauto.
Qed.

(** * Lemmas on command lines *)

Lemma parseOne_config f fl a rest :
  formal f !! "config" = Some fl ->
  parseOne (set_args f (render_arg a ++ rest)) =
    ((true, None), mk_FlagSet (parsed f) (formal f) (<["config" := fl]> (actual f)) rest
                              (<["config" := arg_value a]> (vars f))).
Proof. intros Hfl. destruct a as [[] v|[] v]; cbv [render_arg minuses String.append app]; cbn -[lookup insert]; rewrite Hfl; reflexivity. Qed.

Lemma parseOne_stop f rest r :
  stops_flags rest = Some r -> parseOne (set_args f rest) = ((false, None), set_args f r).
Proof.
  unfold stops_flags, parseOne, set_args. cbn [args].
  destruct rest as [|s rest]; [by intros [= <-]|].
  destruct s as [|c0 [|c tl]]; [by intros [= <-]..|].
  destruct (Ascii.eqb c0 "-"), (Ascii.eqb c "-"), (bool_decide (tl = EmptyString)); simpl;
    by intros; simplify_eq.
Qed.

Lemma render_args_length xs : length xs <= length (mjoin (render_arg <$> xs)).
Proof.
  induction xs as [|[] xs IH]; [done|..]; rewrite fmap_cons, mjoin_cons, length_app; simpl; lia.
Qed.

(** Parsing the [-config] settings of [xs] reaches a flag set with the
    same formal flags and the last setting in the variable, from which the
    loop goes on with the arguments after them. *)
Lemma parse_loop_settings f fl xs rest :
  formal f !! "config" = Some fl ->
  exists g, parsed g = parsed f /\ formal g = formal f /\
    vars g !! "config" = from_option Some (vars f !! "config") (last (arg_value <$> xs)) /\
    forall m, parse_loop (length xs + m) (set_args f (mjoin (render_arg <$> xs) ++ rest)) =
              parse_loop m (set_args g rest).
Proof.
  intros Hfl. revert f Hfl. induction xs as [|a xs IH]; intros f Hfl; [by exists f|].
  destruct (IH (mk_FlagSet (parsed f) (formal f) (<["config" := fl]> (actual f)) []
                (<["config" := arg_value a]> (vars f)))) as (g & Hp & Hform & Hv & Hloop); [done|].
  exists g. split_and!; [exact Hp|exact Hform| |].
  - rewrite Hv. cbn [vars]. rewrite lookup_insert_eq, fmap_cons, last_cons. by destruct (last _).
  - intros m. rewrite fmap_cons, mjoin_cons, <-app_assoc. cbn [length Nat.add parse_loop].
    rewrite (parseOne_config _ _ _ _ Hfl). apply Hloop.
Qed.

(** [flag_Parse] on the [-config] settings of [xs] followed by [rest]:
    the loop after the settings, with the fuel left. *)
Lemma flag_Parse_settings xs rest :
  exists g, formal g = formal config_flags /\
    vars g !! "config" = Some (default "conf.yaml" (last (arg_value <$> xs))) /\
    exists n, flag_Parse (mjoin (render_arg <$> xs) ++ rest) config_flags =
              match parse_loop (S n) (set_args g rest) with
              | None => None
              | Some (None, f') => Some (Parsed f')
              | Some (Some ErrHelp, _) => Some (ExitWith 0 ErrHelp)
              | Some (Some e, _) => Some (ExitWith 2 e)
              end.
Proof.
  destruct (parse_loop_settings (mk_FlagSet true (formal config_flags) (actual config_flags) []
              (vars config_flags)) config_flag xs rest) as (g & _ & Hform & Hv & Hloop); [done|].
  exists g. split_and!; [exact Hform| |].
  - rewrite Hv. by destruct (last _).
  - exists (length (mjoin (render_arg <$> xs) ++ rest) - length xs).
    unfold flag_Parse, FlagSet_Parse.
    pose proof (render_args_length xs). rewrite length_app in *.
    replace (S (length (mjoin (render_arg <$> xs)) + length rest))
      with (length xs + S (length (mjoin (render_arg <$> xs)) + length rest - length xs)) by lia.
    by rewrite (Hloop (S _)).
Qed.

(** The flags end: the variables are those of the flag set, whatever
    becomes of the terminator. *)
Lemma parseOne_stop_vars f rest r :
  stops_flags rest = Some r ->
  exists g, parseOne (set_args f rest) = ((false, None), g) /\ vars g = vars f.
Proof.
  unfold stops_flags, parseOne, set_args. cbn [args].
  destruct rest as [|s rest]; [intros; eexists; split; reflexivity|].
  destruct s as [|c0 [|c tl]]; [intros; eexists; split; reflexivity..|].
  destruct (Ascii.eqb c0 "-"), (Ascii.eqb c "-"), (bool_decide (tl = EmptyString)); simpl;
    intros; try discriminate; eexists; split; reflexivity.
Qed.

(** A help request, with [config] the only flag defined. *)
Lemma parseOne_help g h rest :
  formal g = formal config_flags -> h ∈ ["-h"; "-help"; "--h"; "--help"] ->
  exists g', parseOne (set_args g (h :: rest)) = ((false, Some ErrHelp), g').
Proof.
  intros Hform Hh. unfold parseOne, set_args. cbn [args formal]. rewrite Hform.
  repeat (apply elem_of_cons in Hh as [->|Hh]; [by eexists|]). by apply elem_of_nil in Hh.
Qed.

(** [flag.Parse] returns or exits on every command line. *)
Lemma flag_Parse_some arguments f : exists o, flag_Parse arguments f = Some o.
Proof.
  unfold flag_Parse, FlagSet_Parse.
  destruct (parse_loop_enough (S (length arguments))
              (mk_FlagSet true (formal f) (actual f) arguments (vars f))) as [[[[|msg]|] f'] ->];
    [simpl; lia|eauto..].
Qed.

(** On [-config] settings followed by the end of the flags, [flag.Parse]
    returns with the last setting in [confFile]. *)
Lemma flag_Parse_settings_file xs rest r :
  stops_flags rest = Some r ->
  exists f', flag_Parse (mjoin (render_arg <$> xs) ++ rest) config_flags = Some (Parsed f') /\
    confFile_of f' = default "conf.yaml" (last (arg_value <$> xs)).
Proof.
  intros Hr. destruct (flag_Parse_settings xs rest) as (g & _ & Hv & n & ->).
  destruct (parseOne_stop_vars g rest r Hr) as (g' & Hg' & Hvars).
  cbn [parse_loop]. rewrite Hg'. eexists; split; [done|]. unfold confFile_of. by rewrite Hvars, Hv.
Qed.

Lemma split_at_eq_none s : string_contains_eq s = false -> split_at_eq s = (s, None).
Proof.
  induction s as [|c s IH]; [done|]. simpl. intros [Hc Hs]%orb_false_iff.
  by rewrite Hc, IH.
Qed.

(** [StringVar] on [CommandLine] defines [config] without panicking. *)
Lemma define_config_CommandLine : define_config CommandLine = Ok config_flags.
Proof. reflexivity. Qed.

(** * The command line of [main] *)

(** C20. On a command line made of [-config] settings in any of their four
    spellings ([-config v], [--config v], [-config=v], [--config=v]), then
    nothing, a positional argument or ["--"], [flag.Parse] returns; the
    last setting is the configuration file, [conf.yaml] when there is
    none, and the arguments after the flags (without ["--"]) are left. *)
Theorem flag_Parse_config xs rest r :
  stops_flags rest = Some r ->
  exists f', flag_Parse (mjoin (render_arg <$> xs) ++ rest) config_flags = Some (Parsed f') /\
    confFile_of f' = default "conf.yaml" (last (arg_value <$> xs)) /\ args f' = r.
Proof.
  intros Hr. destruct (flag_Parse_settings xs rest) as (g & _ & Hv & n & ->).
  cbn [parse_loop]. rewrite (parseOne_stop _ _ _ Hr).
  eexists; split_and!; [done| |done]. unfold confFile_of. cbn [vars set_args]. by rewrite Hv.
Qed.

(** C21. [-h], [-help], [--h] or [--help] after the settings is a help
    request: the process exits with status 0. *)
Theorem flag_Parse_help xs h rest :
  h ∈ ["-h"; "-help"; "--h"; "--help"] ->
  flag_Parse (mjoin (render_arg <$> xs) ++ h :: rest) config_flags = Some (ExitWith 0 ErrHelp).
Proof.
  intros Hh. destruct (flag_Parse_settings xs (h :: rest)) as (g & Hform & _ & n & ->).
  destruct (parseOne_help g h rest Hform Hh) as (g' & Hg'). cbn [parse_loop]. by rewrite Hg'.
Qed.

(** C22. [-config] (or [--config]) as the last argument has no value: the
    process exits with status 2 and the message
    ["flag needs an argument: -config"]. *)
Theorem flag_Parse_missing_value xs two :
  flag_Parse (mjoin (render_arg <$> xs) ++ [minuses two +:+ "config"]) config_flags =
  Some (ExitWith 2 (ErrFlag "flag needs an argument: -config")).
Proof.
  destruct (flag_Parse_settings xs [minuses two +:+ "config"]) as (g & Hform & _ & n & ->).
  cbn [parse_loop]. unfold parseOne, set_args. cbn [args formal]. rewrite Hform.
  by destruct two.
Qed.

(** C23. A flag other than [config], [h] and [help] (a name not starting
    with ["-"] or ["="] and without ["="]) is not defined: the process
    exits with status 2 and the message
    ["flag provided but not defined: -<name>"]. *)
Theorem flag_Parse_undefined xs two c nm rest :
  Ascii.eqb c "-" = false -> Ascii.eqb c "=" = false -> string_contains_eq nm = false ->
  (String c nm) ∉ ["config"; "h"; "help"] ->
  flag_Parse (mjoin (render_arg <$> xs) ++ (minuses two +:+ String c nm) :: rest) config_flags =
  Some (ExitWith 2 (ErrFlag ("flag provided but not defined: -" +:+ String c nm))).
Proof.
  intros Hm He Hnm Hn.
  destruct (flag_Parse_settings xs ((minuses two +:+ String c nm) :: rest)) as (g & Hform & _ & n & ->).
  assert (Hl : formal g !! String c nm = None).
  { rewrite Hform. apply lookup_singleton_ne. set_solver. }
  assert (Hh : String.eqb (String c nm) "help" || String.eqb (String c nm) "h" = false).
  { apply orb_false_iff. split; apply String.eqb_neq; set_solver. }
  cbn [parse_loop]. unfold parseOne, set_args. cbn [args formal].
  destruct two; cbn [minuses String.append]; simpl; rewrite ?Hm, ?He; simpl;
    unfold name_and_value; rewrite split_at_eq_none by done; by rewrite Hl, Hh.
Qed.

(** * Examples *)

Definition ex_settings : list config_arg := [ConfigNext false "a.yaml"; ConfigEq true "b.yaml"].

Lemma flag_Parse_terminates_witness :
  length ["-config"; "a.yaml"; "-x"] < 4 /\
  exists o, flag_Parse ["-config"; "a.yaml"; "-x"] config_flags = Some o /\
            FlagSet_Parse 4 ["-config"; "a.yaml"; "-x"] config_flags = Some o.
Proof.
  assert (H : length ["-config"; "a.yaml"; "-x"] < 4) by (simpl; lia).
  split; [exact H|exact (flag_Parse_terminates ["-config"; "a.yaml"; "-x"] config_flags 4 H)].
Defined.

Lemma flag_Parse_config_witness :
  stops_flags ["--"; "x"] = Some ["x"] /\
  exists f', flag_Parse (mjoin (render_arg <$> ex_settings) ++ ["--"; "x"]) config_flags = Some (Parsed f') /\
    confFile_of f' = "b.yaml" /\ args f' = ["x"].
Proof.
  assert (H : stops_flags ["--"; "x"] = Some ["x"]) by reflexivity.
  split; [exact H|exact (flag_Parse_config ex_settings ["--"; "x"] ["x"] H)].
Defined.

Lemma flag_Parse_help_witness :
  "--help" ∈ ["-h"; "-help"; "--h"; "--help"] /\
  flag_Parse (mjoin (render_arg <$> ex_settings) ++ ["--help"]) config_flags = Some (ExitWith 0 ErrHelp).
Proof.
  assert (H : "--help" ∈ ["-h"; "-help"; "--h"; "--help"]) by (repeat constructor).
  split; [exact H|exact (flag_Parse_help ex_settings "--help" [] H)].
Defined.

Lemma flag_Parse_undefined_witness :
  (String "v" "erbose" ∉ ["config"; "h"; "help"]) /\
  flag_Parse (mjoin (render_arg <$> ex_settings) ++ ["-verbose"]) config_flags =
  Some (ExitWith 2 (ErrFlag "flag provided but not defined: -verbose")).
Proof.
  assert (H : String "v" "erbose" ∉ ["config"; "h"; "help"]) by (vm_compute; set_solver).
  split; [exact H|exact (flag_Parse_undefined ex_settings false "v" "erbose" [] eq_refl eq_refl eq_refl H)].
Defined.
