(* ===== verification/Config.v ===== *)
(** * The configuration and its decoding (src/main.go, lines 17-34 and 44)

    The Go structs [servers], [pushoverCredential] and [Config] as records,
    the global [var conf Config] as its zero value, and the decoding that
    [yaml.Unmarshal(f, &conf)] performs once the YAML text is parsed into a
    node tree.  Parsing the text itself is the YAML library's and is part of
    the runtime interface (Runtime.v); what is modelled here is yaml.v3's
    decoder on the structs the source declares, function by function:
    - the key of a field is its [yaml:"..."] tag when it has one and the
      field name in lower case otherwise ([yaml_key]); keys are compared
      exactly, so [Servers], [URL] and [Label] are not keys of the structs;
    - [mapping] first checks that no key is repeated: a repeated key, known
      or not, is an error and the mapping is not decoded at all;
    - [mappingStruct] skips unknown keys and decodes the others onto the
      current value of the struct, in document order (fields it does not
      mention keep their value);
    - a null scalar leaves a string or a struct as it is and sets a slice
      to nil, without error; any other scalar sets a string to its text; a
      sequence replaces a slice with its items decoded onto fresh zero
      elements, keeping those that decoded ([good]); a node of the wrong
      kind is a type error ([terror]);
    - type errors are collected in document order and the decoding goes
      on; [Unmarshal] returns a [TypeError] of all of them.
    The typing judgement [has_type] states which documents decode without
    error; C18 proves that [yaml_Unmarshal] succeeds exactly on them. *)

From Stdlib Require Import String Ascii Setoid.
From stdpp Require Import base list strings sets.
From S2P Require Import Prelude.

#[local] Set Warnings "-clear-no-such-hyp".

(** ** The structs *)

(** [type servers struct { URL string; Label string }] *)
Record servers := mk_servers { URL : string; Label : string }.

(** [type pushoverCredential struct { Token string `yaml:"app_token"`;
    RecipientToken string `yaml:"recipient_token"` }] *)
Record pushoverCredential := mk_pushoverCredential {
  Token : string;
  RecipientToken : string
}.

(** [type Config struct { Servers []servers; UserAgent string `yaml:"ua"`;
    Credential pushoverCredential `yaml:"pushover"` }] *)
Record Config := mk_Config {
  Servers : list servers;
  UserAgent : string;
  Credential : pushoverCredential
}.

(** The zero values; [var conf Config] starts as [zero_Config]. *)
Definition zero_servers : servers := mk_servers "" "".
Definition zero_pushoverCredential : pushoverCredential := mk_pushoverCredential "" "".
Definition zero_Config : Config := mk_Config [] "" zero_pushoverCredential.

(** ** Field keys *)

(** A struct field as the YAML library sees it: its Go name and its
    [yaml] tag. *)
Record field := mk_field { field_name : string; field_tag : option string }.

Definition ascii_ToLower (c : ascii) : ascii :=
  let n := nat_of_ascii c in
  if (65 <=? n)%nat && (n <=? 90)%nat then ascii_of_nat (n + 32) else c.

(** [strings.ToLower] on ASCII text. *)
Fixpoint strings_ToLower (s : string) : string :=
  match s with
  | EmptyString => EmptyString
  | String c s' => String (ascii_ToLower c) (strings_ToLower s')
  end.

(** The key of a field: its tag, or its name in lower case. *)
Definition yaml_key (f : field) : string :=
  match field_tag f with
  | Some t => t
  | None => strings_ToLower (field_name f)
  end.

(** ** YAML nodes *)

(** yaml.v3's short tags. *)
Definition nullTag : string := "!!null".
Definition strTag : string := "!!str".
Definition seqTag : string := "!!seq".
Definition mapTag : string := "!!map".

(** The node tree the parser produces: a scalar with its resolved short
    tag ([n.ShortTag()]: ["!!null"] for a plain [~], [null] or empty
    scalar, ["!!str"] for a quoted one, ...) and its text, a sequence, or
    a mapping with scalar keys in document order. *)
#[warnings="-register-all"]
Inductive node :=
| ScalarNode (tag value : string)
| SequenceNode (items : list node)
| MappingNode (pairs : list (string * node)).

(** ** Decoding *)

(** What [d.unmarshal(n, out)] leaves: the value of [out], whether the
    call returned [good], and the type errors it appended to [d.terrors]. *)
Record decoded (S : Type) := mk_decoded { dval : S; good : bool; terrors : list string }.
Arguments mk_decoded {S}.
Arguments dval {S}.
Arguments good {S}.
Arguments terrors {S}.

Definition dmap {A B} (f : A -> B) (r : decoded A) : decoded B :=
  mk_decoded (f (dval r)) (good r) (terrors r).

(** The value as [terror] quotes it: at most ten bytes, else the first
    seven and an ellipsis. *)
Definition terror_value (v : string) : string :=
  if (10 <? String.length v)%nat then " `" +:+ substring 0 7 v +:+ "...`" else " `" +:+ v +:+ "`".

(** [d.terror(n, tag, out)], without the line number: [outType] is
    [out.Type()] as Go prints it. *)
Definition terror (n : node) (outType : string) : string :=
  match n with
  | ScalarNode tag v => "cannot unmarshal " +:+ tag +:+ terror_value v +:+ " into " +:+ outType
  | SequenceNode _ => "cannot unmarshal " +:+ seqTag +:+ " into " +:+ outType
  | MappingNode _ => "cannot unmarshal " +:+ mapTag +:+ " into " +:+ outType
  end.

(** A key in Go syntax ([%#v]), for keys without escapes. *)
Definition quote (k : string) : string := String "034" (k +:+ String "034" "").

(** The first loop of [d.mapping]: for each key, one error per later
    occurrence of the same key. *)
Fixpoint dup_key_errors (ps : list (string * node)) : list string :=
  match ps with
  | [] => []
  | (k, _) :: rest =>
      ((fun _ => "mapping key " +:+ quote k +:+ " already defined") <$>
         List.filter (fun p => String.eqb p.1 k) rest) ++ dup_key_errors rest
  end.

(** [d.mapping(n, out)]: a repeated key is an error and nothing is
    decoded; otherwise the case of the target's kind, [body]. *)
Definition mapping {S} (ps : list (string * node)) (cur : S) (body : decoded S) : decoded S :=
  match dup_key_errors ps with
  | [] => body
  | es => mk_decoded cur false es
  end.

(** [d.unmarshal(n, out)] for a [string] target: a null leaves it (not
    nullable, [good] false, no error), any other scalar sets its text, a
    mapping or a sequence is a type error. *)
Definition unmarshal_string (n : node) (cur : string) : decoded string :=
  match n with
  | ScalarNode tag v =>
      if String.eqb tag nullTag then mk_decoded cur false [] else mk_decoded v true []
  | SequenceNode _ => mk_decoded cur false [terror n "string"]
  | MappingNode ps => mapping ps cur (mk_decoded cur false [terror n "string"])
  end.

(** A field decoder: the field's key, and how [d.unmarshal] of the
    value's node updates the struct through that field. *)
Definition field_decoder (S : Type) : Type := string * (node -> S -> decoded S).

(** [d.mappingStruct(n, out)]'s loop over the pairs in document order:
    an unknown key is skipped; [done] holds the indices of the fields
    already set ([doneFields]); the field's decoding writes into the
    current struct. *)
Fixpoint mappingStruct {S} (fields : list (field_decoder S)) (tname : string)
    (done : list nat) (ps : list (string * node)) (cur : S) : S * list string :=
  match ps with
  | [] => (cur, [])
  | (k, v) :: rest =>
      match list_find (fun f => f.1 = k) fields with
      | None => mappingStruct fields tname done rest cur
      | Some (id, (_, dec)) =>
          if bool_decide (id ∈ done) then
            let '(c', es) := mappingStruct fields tname done rest cur in
            (c', ("field " +:+ k +:+ " already set in type " +:+ tname) :: es)
          else
            let r := dec v cur in
            let '(c', es) := mappingStruct fields tname (id :: done) rest (dval r) in
            (c', terrors r ++ es)
      end
  end.

(** [d.unmarshal(n, out)] for a struct target of Go type [tname]. *)
Definition unmarshal_struct {S} (fields : list (field_decoder S)) (tname : string)
    (n : node) (cur : S) : decoded S :=
  match n with
  | ScalarNode tag _ =>
      if String.eqb tag nullTag then mk_decoded cur false [] else mk_decoded cur false [terror n tname]
  | SequenceNode _ => mk_decoded cur false [terror n tname]
  | MappingNode ps =>
      mapping ps cur (let '(c, es) := mappingStruct fields tname [] ps cur in mk_decoded c true es)
  end.

(** [d.sequence]'s loop: each item is decoded onto a fresh zero element,
    which is kept when the decoding returned [good]. *)
Fixpoint sequence_items {S} (dec : node -> S -> decoded S) (zero : S) (items : list node)
  : list S * list string :=
  match items with
  | [] => ([], [])
  | it :: rest =>
      let r := dec it zero in
      let '(xs, es) := sequence_items dec zero rest in
      ((if good r then [dval r] else []) ++ xs, terrors r ++ es)
  end.

(** [d.unmarshal(n, out)] for a slice target of Go type [tname]: a null
    sets it to nil, a sequence replaces it, anything else is an error. *)
Definition unmarshal_slice {S} (dec : node -> S -> decoded S) (zero : S) (tname : string)
    (n : node) (cur : list S) : decoded (list S) :=
  match n with
  | ScalarNode tag _ =>
      if String.eqb tag nullTag then mk_decoded [] true [] else mk_decoded cur false [terror n tname]
  | SequenceNode items => let '(xs, es) := sequence_items dec zero items in mk_decoded xs true es
  | MappingNode ps => mapping ps cur (mk_decoded cur false [terror n tname])
  end.

Definition servers_decoder : list (field_decoder servers) :=
  [(yaml_key (mk_field "URL" None), fun n s =>
      dmap (fun v => mk_servers v (Label s)) (unmarshal_string n (URL s)));
   (yaml_key (mk_field "Label" None), fun n s =>
      dmap (fun v => mk_servers (URL s) v) (unmarshal_string n (Label s)))].

Definition unmarshal_servers : node -> servers -> decoded servers :=
  unmarshal_struct servers_decoder "main.servers".

Definition pushoverCredential_decoder : list (field_decoder pushoverCredential) :=
  [(yaml_key (mk_field "Token" (Some "app_token")), fun n p =>
      dmap (fun v => mk_pushoverCredential v (RecipientToken p)) (unmarshal_string n (Token p)));
   (yaml_key (mk_field "RecipientToken" (Some "recipient_token")), fun n p =>
      dmap (fun v => mk_pushoverCredential (Token p) v) (unmarshal_string n (RecipientToken p)))].

Definition Config_decoder : list (field_decoder Config) :=
  [(yaml_key (mk_field "Servers" None), fun n c =>
      dmap (fun v => mk_Config v (UserAgent c) (Credential c))
        (unmarshal_slice unmarshal_servers zero_servers "[]main.servers" n (Servers c)));
   (yaml_key (mk_field "UserAgent" (Some "ua")), fun n c =>
      dmap (fun v => mk_Config (Servers c) v (Credential c)) (unmarshal_string n (UserAgent c)));
   (yaml_key (mk_field "Credential" (Some "pushover")), fun n c =>
      dmap (fun v => mk_Config (Servers c) (UserAgent c) v)
        (unmarshal_struct pushoverCredential_decoder "main.pushoverCredential" n (Credential c)))].

Definition unmarshal_Config : node -> Config -> decoded Config :=
  unmarshal_struct Config_decoder "main.Config".

(** The [Error] method of yaml.v3's [TypeError]. *)
Definition TypeError_Error (es : list string) : string :=
  "yaml: unmarshal errors:" +:+ String "010" "  " +:+ strings_Join es (String "010" "  ").

(** [yaml.Unmarshal(f, &conf)] once the text is parsed: an empty document
    leaves [conf] as it is; otherwise the document's root is decoded onto
    [conf], and the call returns a [TypeError] when a type error was met
    (the decoding has still written into [conf]). *)
Definition yaml_Unmarshal (doc : option node) (conf : Config) : Config * result unit string :=
  match doc with
  | None => (conf, Ok tt)
  | Some n =>
      let r := unmarshal_Config n conf in
      (dval r, match terrors r with [] => Ok tt | es => Err (TypeError_Error es) end)
  end.

(** ** The types of documents *)

(** The Go types the decoding meets, as the schema of their documents: a
    string, a struct with the keys of its fields, a slice. *)
#[warnings="-register-all"]
Inductive ty :=
| TyString
| TyStruct (fields : list (string * ty))
| TySlice (elem : ty).

(** [has_type n t]: decoding [n] onto a value of type [t] meets no type
    error.  Any scalar is a string; a null is any struct or slice; a
    mapping is a struct when its keys are distinct and the value of each
    key of a field has the field's type (other keys are free); a sequence
    is a slice when each item has the element type. *)
Inductive has_type : node -> ty -> Prop :=
| ht_string tag v : has_type (ScalarNode tag v) TyString
| ht_null_struct v fs : has_type (ScalarNode nullTag v) (TyStruct fs)
| ht_null_slice v t : has_type (ScalarNode nullTag v) (TySlice t)
| ht_struct ps fs :
    NoDup ps.*1 ->
    (forall k v t, (k, v) ∈ ps -> (k, t) ∈ fs -> has_type v t) ->
    has_type (MappingNode ps) (TyStruct fs)
| ht_slice items t :
    (forall it, it ∈ items -> has_type it t) ->
    has_type (SequenceNode items) (TySlice t).

(** The schema the struct declarations give. *)
Definition ty_servers : ty :=
  TyStruct [(yaml_key (mk_field "URL" None), TyString); (yaml_key (mk_field "Label" None), TyString)].

Definition ty_pushoverCredential : ty :=
  TyStruct [(yaml_key (mk_field "Token" (Some "app_token")), TyString);
            (yaml_key (mk_field "RecipientToken" (Some "recipient_token")), TyString)].

Definition ty_Config : ty :=
  TyStruct [(yaml_key (mk_field "Servers" None), TySlice ty_servers);
            (yaml_key (mk_field "UserAgent" (Some "ua")), TyString);
            (yaml_key (mk_field "Credential" (Some "pushover")), ty_pushoverCredential)].

(** ** Writing a configuration *)

(** The document that describes a configuration with quoted strings and
    the keys the structs declare. *)
Definition encode_servers (i : servers) : node :=
  MappingNode [("url", ScalarNode strTag (URL i)); ("label", ScalarNode strTag (Label i))].

Definition encode_Config (c : Config) : node :=
  MappingNode [("servers", SequenceNode (encode_servers <$> Servers c));
               ("ua", ScalarNode strTag (UserAgent c));
               ("pushover", MappingNode [("app_token", ScalarNode strTag (Token (Credential c)));
                                         ("recipient_token", ScalarNode strTag (RecipientToken (Credential c)))])].

(** * Lemmas *)

Lemma terrors_dmap {A B} (f : A -> B) r : terrors (dmap f r) = terrors r.
Proof. done. Qed.

Lemma filter_eqb_nil k (ps : list (string * node)) :
  List.filter (fun p => String.eqb p.1 k) ps = [] <-> k ∉ ps.*1.
Proof.
  induction ps as [|[k' v] ps IH]; simpl; [set_solver|].
  rewrite elem_of_cons. destruct (String.eqb_spec k' k); naive_solver.
Qed.

(** The duplicate-key check passes exactly on distinct keys. *)
Lemma dup_key_errors_nil ps : dup_key_errors ps = [] <-> NoDup ps.*1.
Proof.
  induction ps as [|[k v] ps IH]; simpl; [split; [constructor|done]|].
  rewrite NoDup_cons, <-IH, <-filter_eqb_nil.
  destruct (List.filter _ ps); simpl; naive_solver.
Qed.

Lemma mapping_terrors {S} ps (cur : S) body :
  terrors (mapping ps cur body) = [] <-> NoDup ps.*1 /\ terrors body = [].
Proof.
  rewrite <-dup_key_errors_nil. unfold mapping.
  destruct (dup_key_errors ps); naive_solver.
Qed.

(** Whatever [d.mapping] decides, the target is either the one the case
    of its kind wrote or left as it was. *)
Lemma mapping_dval {S} ps (cur : S) body :
  dval (mapping ps cur body) = dval body \/ dval (mapping ps cur body) = cur.
Proof. unfold mapping. repeat case_match; auto. Qed.

Lemma unmarshal_string_ok n cur : terrors (unmarshal_string n cur) = [] <-> has_type n TyString.
Proof.
  split; [|inversion 1; simpl; by case_match].
  destruct n as [tag v| |ps]; [constructor|done|].
  simpl. rewrite mapping_terrors. naive_solver.
Qed.

Lemma sequence_items_ok {S} (dec : node -> S -> decoded S) zero items :
  (sequence_items dec zero items).2 = [] <-> forall it, it ∈ items -> terrors (dec it zero) = [].
Proof.
  induction items as [|it items IH]; simpl; [set_solver|].
  destruct (sequence_items dec zero items) as [xs es]. simpl in *. split.
  - intros [H1 H2]%app_eq_nil it' [->|Hit']%elem_of_cons; [done|by apply IH].
  - intros H. rewrite H, (proj2 IH); [done|set_solver..].
Qed.

(** Two pairs of a list with distinct first components agree when their
    first components do. *)
Lemma NoDup_fst_elem {A B} (l : list (A * B)) x y1 y2 :
  NoDup l.*1 -> (x, y1) ∈ l -> (x, y2) ∈ l -> y1 = y2.
Proof.
  intros Hnd (i & Hi)%list_elem_of_lookup (j & Hj)%list_elem_of_lookup.
  assert (i = j) as ->.
  { eapply NoDup_lookup; [done| |]; rewrite list_lookup_fmap; [by rewrite Hi|by rewrite Hj]. }
  by simplify_eq.
Qed.

#[export] Hint Rewrite @terrors_dmap : go.

(** A condition on the pairs of a mapping splits into its first pair and
    the others. *)
Lemma pairs_cons_iff (P : node -> ty -> Prop) (tys : list (string * ty)) k v ps :
  (forall k0 v0 t, (k0, v0) ∈ (k, v) :: ps -> (k0, t) ∈ tys -> P v0 t) <->
  (forall t, (k, t) ∈ tys -> P v t) /\ (forall k0 v0 t, (k0, v0) ∈ ps -> (k0, t) ∈ tys -> P v0 t).
Proof. setoid_rewrite elem_of_cons. naive_solver. Qed.

Lemma Forall2_fst_eq {A B C} (l1 : list (A * B)) (l2 : list (A * C)) :
  Forall2 (fun x y => x.1 = y.1) l1 l2 -> l1.*1 = l2.*1.
Proof. induction 1; simpl; by f_equal. Qed.

Section StructDecoding.
Context {S : Type} (fields : list (field_decoder S)) (tys : list (string * ty)) (tname : string).

(** Each field decoder has the key of the field type at its position, and
    meets no error exactly on the nodes of that type, whatever the value
    it writes into. *)
Hypothesis Hfields : Forall2 (fun f ft => f.1 = ft.1 /\
  forall v c, terrors (f.2 v c) = [] <-> has_type v ft.2) fields tys.
Hypothesis Htys : NoDup tys.*1.

Lemma field_found k id f :
  list_find (fun f => f.1 = k) fields = Some (id, f) ->
  exists t, (k, t) ∈ tys /\ (forall t', (k, t') ∈ tys -> t' = t) /\
            forall v c, terrors (f.2 v c) = [] <-> has_type v t.
Proof.
  intros (Hl & Hk & _)%list_find_Some.
  destruct (Forall2_lookup_l _ _ _ _ _ Hfields Hl) as ([k' t] & Hl' & Hk' & Hd).
  simpl in *; subst. exists t. split_and!; [by eapply list_elem_of_lookup_2| |done].
  intros t' Ht'. eapply NoDup_fst_elem; [done|done|by eapply list_elem_of_lookup_2].
Qed.

Lemma field_missing k t :
  list_find (fun f => f.1 = k) fields = None -> (k, t) ∉ tys.
Proof.
  intros Hf Ht. apply list_find_None in Hf. rewrite Forall_forall in Hf.
  assert (Hk : fields.*1 = tys.*1).
  { eapply Forall2_fst_eq, Forall2_impl; [exact Hfields|naive_solver]. }
  assert (k ∈ fields.*1) as ([k' d] & -> & Hin)%list_elem_of_fmap.
  { rewrite Hk. apply list_elem_of_fmap. by exists (k, t). }
  by apply (Hf _ Hin).
Qed.

(** The loop of [mappingStruct] meets no error exactly when the value of
    each key of a field has the field's type, provided the keys are
    distinct and the fields they name are not done yet. *)
Lemma mappingStruct_ok done ps cur :
  NoDup ps.*1 ->
  (forall k id f, k ∈ ps.*1 -> list_find (fun f => f.1 = k) fields = Some (id, f) -> id ∉ done) ->
  (mappingStruct fields tname done ps cur).2 = [] <->
  (forall k v t, (k, v) ∈ ps -> (k, t) ∈ tys -> has_type v t).
Proof.
  revert done cur. induction ps as [|[k v] ps IH]; intros done cur Hnd Hdone; simpl.
  { split; [set_solver|done]. }
  apply NoDup_cons in Hnd as [Hk Hnd]. rewrite pairs_cons_iff.
  destruct (list_find (fun f => f.1 = k) fields) as [[id [k' dec]]|] eqn:Hf.
  - rewrite bool_decide_false by (eapply Hdone; [by left|done]).
    destruct (field_found _ _ _ Hf) as (t & Ht & Huniq & Hd). simpl in Hd.
    destruct (mappingStruct fields tname (id :: done) ps (dval (dec v cur))) as [c' es] eqn:E.
    assert (Hrest : es = [] <-> forall k0 v0 t, (k0, v0) ∈ ps -> (k0, t) ∈ tys -> has_type v0 t).
    { rewrite <-(IH (id :: done) (dval (dec v cur))), E; [done..|].
      intros k'' id'' f'' Hk'' Hf'' [->|Hin]%elem_of_cons; [|by eapply (Hdone k''); [right| |]].
      apply list_find_Some in Hf as (Hl & Hkk & _), Hf'' as (Hl'' & Hkk'' & _).
      simplify_eq/=. set_solver. }
    simpl. rewrite <-Hrest. split.
    + intros [H1 H2]%app_eq_nil. split; [|done]. intros t' Ht'. rewrite (Huniq t' Ht'). by apply (Hd v cur).
    + intros [H1 H2]. rewrite H2, (proj2 (Hd v cur)); [done|by apply H1].
  - rewrite <-IH by (done || (intros; eapply Hdone; [by right|done])).
    split; [|naive_solver]. intros H. split; [|done]. intros t Ht.
    by destruct (field_missing _ t Hf).
Qed.

(** The decoding of a struct meets no error exactly on the nodes of its
    type. *)
Lemma unmarshal_struct_ok n cur :
  terrors (unmarshal_struct fields tname n cur) = [] <-> has_type n (TyStruct tys).
Proof.
  destruct n as [tag v|items|ps]; simpl.
  - destruct (String.eqb_spec tag nullTag) as [->|Hne]; split; try done; [constructor|].
    inversion 1; congruence.
  - split; [done|inversion 1].
  - rewrite mapping_terrors.
    destruct (mappingStruct fields tname [] ps cur) as [c es] eqn:E. simpl.
    split.
    + intros [Hnd ->]. constructor; [done|].
      apply (mappingStruct_ok [] ps cur); [done|set_solver|by rewrite E].
    + inversion 1 as [| | |? ? Hnd Hps|]; subst. split; [done|].
      rewrite <-(mappingStruct_ok [] ps cur) in Hps by (done || set_solver).
      by rewrite E in Hps.
Qed.
End StructDecoding.

Section SliceDecoding.
Context {S : Type} (dec : node -> S -> decoded S) (zero : S) (tname : string) (t : ty).
Hypothesis Hdec : forall v c, terrors (dec v c) = [] <-> has_type v t.

(** The decoding of a slice meets no error exactly on the nodes of its
    type. *)
Lemma unmarshal_slice_ok n cur :
  terrors (unmarshal_slice dec zero tname n cur) = [] <-> has_type n (TySlice t).
Proof.
  destruct n as [tag v|items|ps]; simpl.
  - destruct (String.eqb_spec tag nullTag) as [->|Hne]; split; try done; [constructor|].
    inversion 1; congruence.
  - pose proof (sequence_items_ok dec zero items) as H.
    destruct (sequence_items dec zero items) as [xs es]. simpl in *. rewrite H.
    split; [intros Hit; constructor; intros it Hin; apply (Hdec it zero), Hit, Hin|].
    inversion 1; subst. intros it Hin. by apply (Hdec it zero); auto.
  - rewrite mapping_terrors. split; [by intros [_ ?]|inversion 1].
Qed.
End SliceDecoding.

(** Builds the [Forall2] of the field decoders of a struct against its
    field types, leaving one goal per field. *)
Ltac fields_typed :=
  unfold servers_decoder, pushoverCredential_decoder, Config_decoder;
  repeat (apply List.Forall2_cons; [split; [reflexivity|intros ??; cbn [snd]; rewrite terrors_dmap]|]);
  [..|apply List.Forall2_nil].

Lemma unmarshal_servers_ok n cur : terrors (unmarshal_servers n cur) = [] <-> has_type n ty_servers.
Proof.
  apply unmarshal_struct_ok; [|by compute; repeat constructor; set_solver].
  fields_typed; apply unmarshal_string_ok.
Qed.

Lemma unmarshal_Config_ok n cur : terrors (unmarshal_Config n cur) = [] <-> has_type n ty_Config.
Proof.
  apply unmarshal_struct_ok; [|by compute; repeat constructor; set_solver].
  fields_typed.
  - apply unmarshal_slice_ok, unmarshal_servers_ok.
  - apply unmarshal_string_ok.
  - apply unmarshal_struct_ok; [|by compute; repeat constructor; set_solver].
    fields_typed; apply unmarshal_string_ok.
Qed.

Lemma sequence_items_encode l :
  sequence_items unmarshal_servers zero_servers (encode_servers <$> l) = (l, []).
Proof.
  induction l as [|[u lb] l IH]; [done|].
  rewrite fmap_cons. cbn [sequence_items]. by rewrite IH.
Qed.

(** A property of the struct that every field decoder keeps is kept by
    the loop of [mappingStruct]. *)
Lemma mappingStruct_keep {S} (P : S -> Prop) fields tname dn ps cur :
  P cur ->
  (forall k dec v c, (k, dec) ∈ fields -> k ∈ ps.*1 -> P c -> P (dval (dec v c))) ->
  P (mappingStruct fields tname dn ps cur).1.
Proof.
  revert dn cur. induction ps as [|[k v] ps IH]; intros dn cur Hcur Hdec; [done|].
  assert (Hrest : forall dn' c, P c -> P (mappingStruct fields tname dn' ps c).1).
  { intros dn' c Hc. apply IH; [done|]. intros; eapply Hdec; [done|by right|done]. }
  simpl. destruct (list_find (fun f => f.1 = k) fields) as [[id [k' dec]]|] eqn:Hf; [|by apply Hrest].
  apply list_find_Some in Hf as (Hl & Hk & _). simpl in Hk; subst k'.
  case_bool_decide.
  - pose proof (Hrest dn cur Hcur). by destruct (mappingStruct _ _ _ _ _).
  - pose proof (Hrest (id :: dn) (dval (dec v cur))) as H'.
    destruct (mappingStruct _ _ _ _ _). apply H'.
    eapply Hdec; [by eapply list_elem_of_lookup_2|by left|done].
Qed.

(** Without the key ["servers"], decoding a mapping onto a configuration
    keeps its list of servers, whatever else the mapping holds. *)
Lemma Unmarshal_keeps_Servers ps c :
  "servers" ∉ ps.*1 ->
  Servers (yaml_Unmarshal (Some (MappingNode ps)) c).1 = Servers c.
Proof.
  intros Hn. cbn [yaml_Unmarshal fst]. unfold unmarshal_Config, unmarshal_struct.
  destruct (mapping_dval ps c (let '(c', es) := mappingStruct Config_decoder "main.Config" [] ps c in
                               mk_decoded c' true es)) as [->| ->]; [|done].
  destruct (mappingStruct Config_decoder "main.Config" [] ps c) as [c' es] eqn:E. simpl.
  replace c' with (mappingStruct Config_decoder "main.Config" [] ps c).1 by by rewrite E.
  apply (mappingStruct_keep (fun c' => Servers c' = Servers c)); [done|].
  intros k dec v c0 Hin Hk Hc0.
  repeat (apply elem_of_cons in Hin as [Hin|Hin]; [simplify_eq|]);
    [done|by rewrite Hc0|by rewrite Hc0|by apply elem_of_nil in Hin].
Qed.

(** * The schema *)

(** C13. Every configuration is read back from the document that writes
    it with quoted strings and the keys [servers], [url], [label], [ua],
    [pushover], [app_token] and [recipient_token]: decoding it onto any
    value of [conf] gives exactly that configuration, without error. *)
Theorem Unmarshal_encode_Config c cur :
  yaml_Unmarshal (Some (encode_Config c)) cur = (c, Ok tt).
Proof.
  destruct c as [srvs ua [tok rtok]]. unfold yaml_Unmarshal, unmarshal_Config. simpl.
  by rewrite sequence_items_encode.
Qed.

(** C18. [yaml.Unmarshal] into [conf] returns no error exactly on the
    documents of the type the struct declarations give: distinct keys in
    every mapping, a scalar for [ua], [url], [label], [app_token] and
    [recipient_token], a sequence of mappings (or null) for [servers], a
    mapping (or null) for [pushover], whatever other keys there are. *)
Theorem Unmarshal_ok_iff_typed n c :
  (yaml_Unmarshal (Some n) c).2 = Ok tt <-> has_type n ty_Config.
Proof.
  rewrite <-(unmarshal_Config_ok n c). simpl.
  destruct (terrors (unmarshal_Config n c)); naive_solver.
Qed.

(** * Examples *)

(** [ua] given twice: yaml.v3 rejects the whole mapping, so nothing is
    decoded and [Unmarshal] fails; the document has no type. *)
Definition dup_doc : node :=
  MappingNode [("ua", ScalarNode strTag "a"); ("servers", ScalarNode nullTag "");
               ("ua", ScalarNode strTag "b")].

Lemma Unmarshal_ok_iff_typed_example :
  yaml_Unmarshal (Some dup_doc) zero_Config =
    (zero_Config, Err ("yaml: unmarshal errors:" +:+ String "010" "  " +:+
                       "mapping key " +:+ quote "ua" +:+ " already defined")) /\
  ~ has_type dup_doc ty_Config.
Proof.
  split; [reflexivity|]. inversion 1 as [| | |ps fs Hnd _|]. subst.
  apply NoDup_cons in Hnd as [Hn _]. apply Hn. simpl. set_solver.
Qed.
