(* ===== verification/Runtime.v ===== *)
(** * The runtime the program talks to

    The values of the Go libraries [main.go] uses ([net/http]'s client,
    request and response, [crypto/tls]'s config, [gregdel/pushover]'s
    message, application and recipient), the program state (the global
    [conf], the outside world and the log of the I/O calls made), and the
    interface [Runtime] through which the program reaches the outside world:
    the file system ([os.ReadFile]), the YAML parser, URL parsing,
    [client.Do], draining and closing a response body, and the Pushover
    API.  The program's theorems are proved for every instance of
    [Runtime]; [scripted] is an instance whose answers are lists given in
    advance, used to run the program on concrete inputs. *)

From Stdlib Require Import String ZArith.
From stdpp Require Import base list strings gmap.
From S2P Require Import Prelude Config.

(** ** [crypto/tls] and [net/http] values *)

(** [tls.Config], reduced to the field the program sets. *)
Record tls_Config := mk_tls_Config { InsecureSkipVerify : bool }.

(** [http.Transport]; a nil [TLSClientConfig] is [None]. *)
Record http_Transport := mk_http_Transport { TLSClientConfig : option tls_Config }.

(** [http.Client]; a nil [Transport] ([None]) means [http.DefaultTransport]. *)
Record http_Client := mk_http_Client { Transport : option http_Transport }.

(** [http.Header] is a [map[string][]string]. *)
Abbreviation http_Header := (gmap string (list string)).

(** [h.Add(key, value)] appends [value] to the values of [key]; the program
    only adds the key ["User-Agent"], which is already in the canonical
    form [textproto] would give it. *)
Definition Header_Add (key value : string) (h : http_Header) : http_Header :=
  <[key := default [] (h !! key) ++ [value]]> h.

(** [http.Request], reduced to what the program sets. *)
Record http_Request := mk_http_Request {
  Method : string;
  RequestURL : string;
  Header : http_Header
}.

(** [http.Response]: the status line after the protocol ([Status], e.g.
    ["200 OK"]), the numeric code, and the body as a handle. *)
Record http_Response := mk_http_Response {
  Status : string;
  StatusCode : Z;
  Body : nat
}.

(** ** [gregdel/pushover] values *)

(** [pushover.New(token)] *)
Record pushover_Pushover := pushover_New { AppToken : string }.

(** [pushover.NewRecipient(token)] *)
Record pushover_Recipient := pushover_NewRecipient { RecipientTok : string }.

(** [pushover.Message], reduced to the fields the program sets. *)
Record pushover_Message := mk_pushover_Message {
  Message : string;
  Title : string;
  Priority : Z;
  HTML : bool
}.

(** ** The I/O log *)

(** One entry per call to the outside world, with its answer. *)
Inductive event :=
| ev_ReadFile (name : string) (r : result string string)
| ev_Do (client : http_Client) (req : http_Request) (r : result http_Response string)
| ev_Copy (resp : http_Response) (r : result Z string)
| ev_Close (resp : http_Response)
| ev_Send (app : pushover_Pushover) (m : pushover_Message)
          (rcpt : pushover_Recipient) (r : result unit string).

(** ** The interface to the outside world *)

(** The outside world is a state [W] that every call may change (a server
    may answer differently each time).  The YAML parser and URL parsing are
    pure functions of their input. *)
Class Runtime (W : Type) := {
  os_ReadFile : string -> W -> result string string * W;
  yaml_Parse : string -> result (option node) string;
  url_Parse : string -> result unit string;
  client_Do : http_Client -> http_Request -> W -> result http_Response string * W;
  io_CopyDiscard : http_Response -> W -> result Z string * W;
  body_Close : http_Response -> W -> W;
  app_SendMessage : pushover_Pushover -> pushover_Message -> pushover_Recipient ->
                    W -> result unit string * W
}.

(** ** The program state *)

(** The global [conf], the outside world, and the log of I/O calls so far. *)
Record St (W : Type) := mk_St { conf : Config; world : W; io_log : list event }.
Arguments mk_St {W} _ _ _.
Arguments conf {W} _.
Arguments world {W} _.
Arguments io_log {W} _.

Abbreviation M W := (GoM (St W)).

Section Calls.
Context {W : Type} `{!Runtime W}.

(** A call: ask the world, keep its new state, log the call. *)
Definition call {A} (f : W -> A * W) (ev : A -> event) : M W A :=
  fun s => let '(a, w') := f (world s) in
           (Normal a, mk_St (conf s) w' (io_log s ++ [ev a])).

Definition ReadFile (name : string) : M W (result string string) :=
  call (os_ReadFile name) (ev_ReadFile name).

Definition Do (c : http_Client) (req : http_Request) : M W (result http_Response string) :=
  call (client_Do c req) (ev_Do c req).

Definition CopyDiscard (resp : http_Response) : M W (result Z string) :=
  call (io_CopyDiscard resp) (ev_Copy resp).

Definition Close (resp : http_Response) : M W unit :=
  call (fun w => (tt, body_Close resp w)) (fun _ => ev_Close resp).

Definition SendMessage (app : pushover_Pushover) (m : pushover_Message)
    (rcpt : pushover_Recipient) : M W (result unit string) :=
  call (app_SendMessage app m rcpt) (ev_Send app m rcpt).

Definition getConf : M W Config := fun s => (Normal (conf s), s).

Definition setConf (c : Config) : M W unit :=
  fun s => (Normal tt, mk_St c (world s) (io_log s)).

(** [http.NewRequest(method, url, nil)]: fails when the URL does not
    parse, and otherwise gives a request with an empty header. *)
Definition http_NewRequest (method url : string) : result http_Request string :=
  match url_Parse url with
  | Err e => Err e
  | Ok _ => Ok (mk_http_Request method url ∅)
  end.

(** [yaml.Unmarshal(f, &conf)]: a parse error leaves [conf] alone;
    otherwise the document is decoded onto [conf] (Config.v). *)
Definition Unmarshal (data : string) : M W (result unit string) :=
  match yaml_Parse data with
  | Err e => ret (Err e)
  | Ok doc =>
      let* c := getConf in
      let '(c', r) := yaml_Unmarshal doc c in
      let* _ := setConf c' in
      ret r
  end.
End Calls.

(** ** Reading the log *)

(** The requests sent by [client.Do], with their answers, in order. *)
Definition gets (l : list event) : list (http_Request * result http_Response string) :=
  omap (fun e => match e with ev_Do _ req r => Some (req, r) | _ => None end) l.

(** The clients the requests were sent with. *)
Definition clients (l : list event) : list http_Client :=
  omap (fun e => match e with ev_Do c _ _ => Some c | _ => None end) l.

(** The notifications sent, in order. *)
Definition sends (l : list event)
  : list (pushover_Pushover * pushover_Message * pushover_Recipient) :=
  omap (fun e => match e with ev_Send a m r _ => Some (a, m, r) | _ => None end) l.

(** ** A scripted world *)

(** The answers of the outside world given in advance: the files, the
    answers to [client.Do], to the body copies and to the Pushover calls,
    each consumed in order. *)
Record script := mk_script {
  files : list (string * string);
  do_answers : list (result http_Response string);
  copy_answers : list (result Z string);
  send_answers : list (result unit string)
}.

Definition pop {A} (dflt : A) (l : list A) : A * list A :=
  match l with [] => (dflt, []) | a :: l' => (a, l') end.

Section Scripted.
(** The parser and the URL check of the scripted world. *)
Context (parse : string -> result (option node) string) (urlp : string -> result unit string).

(** A file that is not in the script does not exist; an exhausted script
    refuses connections, and lets copies and notifications succeed. *)
#[local] Instance scripted : Runtime script := {
  os_ReadFile name w :=
    (match list_find (fun f => f.1 = name) (files w) with
     | Some (_, (_, d)) => Ok d
     | None => Err ("open " +:+ name +:+ ": no such file or directory")
     end, w);
  yaml_Parse := parse;
  url_Parse := urlp;
  client_Do _ _ w :=
    let '(a, l) := pop (Err "connection refused") (do_answers w) in
    (a, mk_script (files w) l (copy_answers w) (send_answers w));
  io_CopyDiscard _ w :=
    let '(a, l) := pop (Ok 0%Z) (copy_answers w) in
    (a, mk_script (files w) (do_answers w) l (send_answers w));
  body_Close _ w := w;
  app_SendMessage _ _ _ w :=
    let '(a, l) := pop (Ok tt) (send_answers w) in
    (a, mk_script (files w) (do_answers w) (copy_answers w) l)
}.
End Scripted.

(** * Lemmas on the log *)

Lemma gets_app l1 l2 : gets (l1 ++ l2) = gets l1 ++ gets l2.
Proof. apply omap_app. Qed.

Lemma clients_app l1 l2 : clients (l1 ++ l2) = clients l1 ++ clients l2.
Proof. apply omap_app. Qed.

Lemma sends_app l1 l2 : sends (l1 ++ l2) = sends l1 ++ sends l2.
Proof. apply omap_app. Qed.

(** The log readers on the empty log and on each kind of entry. *)
Lemma log_readers_nil : gets [] = [] /\ clients [] = [] /\ sends [] = [].
Proof. done. Qed.

Lemma gets_cons e l :
  gets (e :: l) = match e with ev_Do _ req r => (req, r) :: gets l | _ => gets l end.
Proof. by destruct e. Qed.

Lemma clients_cons e l :
  clients (e :: l) = match e with ev_Do c _ _ => c :: clients l | _ => clients l end.
Proof. by destruct e. Qed.

Lemma sends_cons e l :
  sends (e :: l) = match e with ev_Send a m r _ => (a, m, r) :: sends l | _ => sends l end.
Proof. by destruct e. Qed.

Definition gets_nil := proj1 log_readers_nil.
Definition clients_nil := proj1 (proj2 log_readers_nil).
Definition sends_nil := proj2 (proj2 log_readers_nil).

#[export] Hint Rewrite gets_app clients_app sends_app gets_cons clients_cons sends_cons
  gets_nil clients_nil sends_nil : go.

(** [rt_simpl] runs a computation of the program symbolically, reading the
    fields of the state records it builds. *)
Ltac rt_simpl := repeat (progress (go_simpl; cbn [world conf io_log] in *)).

(** ** Example inputs *)

(** A URL check that rejects one malformed URL, as [url.Parse] does. *)
Definition ex_url_Parse (u : string) : result unit string :=
  if String.eqb u "http://[::1" then Err "missing ']' in host" else Ok tt.

(** The client [main] builds: its transport skips certificate checks. *)
Definition ex_response (status : string) (code : Z) : http_Response :=
  mk_http_Response status code 0.
