(* ===== verification/Checker.v ===== *)
(** * The check loop (src/main.go, lines 55-76)

    [check_server] is the body of [for _, i := range conf.Servers]: build
    the [GET] request (a URL that does not parse is fatal), add the
    [User-Agent] header from [conf.UserAgent], send it with [client.Do]; an
    error from [Do] appends ["<Label> is seems down."] and continues; a
    response whose [Status] is not exactly ["200 OK"] appends that entry and
    ["Invalid Status Code"]; every response body is then drained (an error
    is fatal) and closed.  [check_servers] runs the body over the servers.

    The abstract view of the loop is [expected_msg]: each server gets a
    [verdict] from the answer to its request, and the failure list is the
    concatenation of the entries of the verdicts, in the order of the
    servers.  [check_servers_normal] shows that a loop that ends normally
    sent exactly one request per server, in order, with the user agent, and
    built exactly [expected_msg] of the answers it got;
    [check_servers_fatal] shows where a fatal loop stopped. *)

From Stdlib Require Import String ZArith.
From stdpp Require Import base list strings gmap.
From S2P Require Import Prelude Config Runtime.

(** ** The failure entries *)

(** [fmt.Sprintf("%s is seems down.", i.Label)] *)
Definition seems_down (label : string) : string := label +:+ " is seems down.".

Definition invalid_status_code : string := "Invalid Status Code".

Definition status_OK : string := "200 OK".

(** ** The loop body *)

Section Loop.
Context {W : Type} `{!Runtime W}.

(** The request the body sends for server [i] with user agent [ua],
    when its URL parses. *)
Definition request_for (ua : string) (req : http_Request) : http_Request :=
  mk_http_Request (Method req) (RequestURL req) (Header_Add "User-Agent" ua (Header req)).

(** Lines 58-75, with [msg] the failure list so far. *)
Definition check_server (client : http_Client) (i : servers) (msg : list string)
  : M W (list string) :=
  match http_NewRequest "GET" (URL i) with
  | Err e => fatal e
  | Ok req0 =>
      let* c := getConf in
      let req := request_for (UserAgent c) req0 in
      let* r := Do client req in
      match r with
      | Err _ => ret (msg ++ [seems_down (Label i)])
      | Ok resp =>
          let msg' := if String.eqb (Status resp) status_OK then msg
                      else msg ++ [seems_down (Label i); invalid_status_code] in
          let* cp := CopyDiscard resp in
          match cp with
          | Err e => fatal e
          | Ok _ => let* _ := Close resp in ret msg'
          end
      end
  end.

(** Lines 56-76: the loop over the servers. *)
Definition check_servers (client : http_Client) (srvs : list servers) (msg : list string)
  : M W (list string) :=
  forRange (check_server client) srvs msg.
End Loop.

(** ** The abstract view *)

(** What a server's check found. *)
Inductive verdict := Healthy | Unreachable | WrongStatus.

#[export] Instance verdict_eq_dec : EqDecision verdict.
Proof. solve_decision. Qed.

(** The verdict of the answer to a request. *)
Definition verdict_of (r : result http_Response string) : verdict :=
  match r with
  | Err _ => Unreachable
  | Ok resp => if String.eqb (Status resp) status_OK then Healthy else WrongStatus
  end.

(** The entries a verdict adds to the failure list. *)
Definition failure_entries (label : string) (v : verdict) : list string :=
  match v with
  | Healthy => []
  | Unreachable => [seems_down label]
  | WrongStatus => [seems_down label; invalid_status_code]
  end.

(** The failure list of servers checked with the given verdicts. *)
Definition expected_msg (checks : list (servers * verdict)) : list string :=
  mjoin ((fun '(i, v) => failure_entries (Label i) v) <$> checks).

(** The request of server [i] under user agent [ua], as sent. *)
Definition get_request (ua : string) (i : servers) : http_Request :=
  mk_http_Request "GET" (URL i) (<["User-Agent" := [ua]]> ∅).

(** The log of one server's check that ends normally: the request failed,
    or its response was drained and then closed. *)
Inductive server_block (client : http_Client) (req : http_Request) : list event -> Prop :=
| block_unreachable e :
    server_block client req [ev_Do client req (Err e)]
| block_response resp n :
    server_block client req [ev_Do client req (Ok resp); ev_Copy resp (Ok n); ev_Close resp].

(** * Lemmas *)

Lemma request_for_new ua url :
  request_for ua (mk_http_Request "GET" url ∅) = mk_http_Request "GET" url (<["User-Agent" := [ua]]> ∅).
Proof. reflexivity. Qed.

Lemma expected_msg_cons i v checks :
  expected_msg ((i, v) :: checks) = failure_entries (Label i) v ++ expected_msg checks.
Proof. reflexivity. Qed.

#[export] Hint Rewrite request_for_new expected_msg_cons : go.

Section LoopLemmas.
Context {W : Type} `{!Runtime W}.

(** The log a server's check adds, whatever way it ends, holds no
    notification. *)
Definition check_log (client : http_Client) (req : http_Request)
    (r : result http_Response string) (new : list event) : Prop :=
  gets new = [(req, r)] /\ clients new = [client] /\ sends new = [].

(** A check that ends normally sent one request, the server's, and
    appended the entries of the verdict of its answer. *)
Lemma check_server_normal client i msg s msg' s' :
  check_server client i msg s = (Normal msg', s') ->
  conf s' = conf s /\
  exists r new, io_log s' = io_log s ++ new /\
    check_log client (get_request (UserAgent (conf s)) i) r new /\
    msg' = msg ++ failure_entries (Label i) (verdict_of r).
Proof.
  intros H. unfold check_server, http_NewRequest, Do, CopyDiscard, Close, call, getConf in H.
  destruct (url_Parse (URL i)); rt_simpl; [|done].
  repeat case_match; simplify_eq/=; (split; [done|]).
  1,2: exists (Ok a1). 3: eexists (Err _).
  all: eexists; split; [by rewrite <- ?app_assoc|].
  all: split; [done|]; simpl; by rewrite ?H6, ?app_nil_r.
Qed.

(** A check that ends fatally either had a URL that does not parse and
    did nothing, or got a response whose body could not be drained. *)
Lemma check_server_fatal client i msg s e s' :
  check_server client i msg s = (Fatal e, s') ->
  conf s' = conf s /\
  exists new, io_log s' = io_log s ++ new /\
    ((url_Parse (URL i) = Err e /\ new = []) \/
     (exists resp, check_log client (get_request (UserAgent (conf s)) i) (Ok resp) new /\
                   last new = Some (ev_Copy resp (Err e)))).
Proof.
  intros H. unfold check_server, http_NewRequest, Do, CopyDiscard, Close, call, getConf in H.
  destruct (url_Parse (URL i)) eqn:Hu; rt_simpl.
  - repeat case_match; simplify_eq/=. split; [done|].
    eexists; split; [by rewrite <- ?app_assoc|]. right. by eexists.
  - simplify_eq/=. split; [done|]. exists []. split; [by rewrite app_nil_r|by left].
Qed.

(** The log of a check that ends normally is one block. *)
Lemma check_server_block client i msg s msg' s' :
  check_server client i msg s = (Normal msg', s') ->
  exists blk, io_log s' = io_log s ++ blk /\
    server_block client (get_request (UserAgent (conf s)) i) blk.
Proof.
  intros H. unfold check_server, http_NewRequest, Do, CopyDiscard, Close, call, getConf in H.
  destruct (url_Parse (URL i)); rt_simpl; [|done].
  repeat case_match; simplify_eq/=; eexists; (split; [by rewrite <- ?app_assoc|]);
    constructor.
Qed.
End LoopLemmas.

(** * Each branch of the loop body *)

Ltac unfold_check :=
  unfold check_server, http_NewRequest, Do, CopyDiscard, Close, call, getConf,
    get_request, status_OK in *.

Section Branches.
Context {W : Type} `{!Runtime W}.
Context (client : http_Client) (i : servers) (msg : list string) (s : St W).

(** C10. A URL that [http.NewRequest] rejects is fatal at once: nothing
    is sent and the state is unchanged. *)
Theorem check_server_bad_url e :
  url_Parse (URL i) = Err e -> check_server client i msg s = (Fatal e, s).
Proof. intros Hu. unfold_check. by rewrite Hu. Qed.

(** C6. A request that cannot be completed appends exactly
    ["<Label> is seems down."] and the loop goes on; the body is neither
    drained nor closed (there is none). *)
Theorem check_server_unreachable u e w' :
  url_Parse (URL i) = Ok u ->
  client_Do client (get_request (UserAgent (conf s)) i) (world s) = (Err e, w') ->
  check_server client i msg s =
    (Normal (msg ++ [seems_down (Label i)]),
     mk_St (conf s) w' (io_log s ++ [ev_Do client (get_request (UserAgent (conf s)) i) (Err e)])).
Proof. intros Hu Hdo. unfold_check. rewrite Hu. rt_simpl. by rewrite Hdo. Qed.

(** C8. A response whose status line is exactly ["200 OK"] adds no entry;
    its body is drained and closed. *)
Theorem check_server_healthy u resp w1 n w2 :
  url_Parse (URL i) = Ok u ->
  client_Do client (get_request (UserAgent (conf s)) i) (world s) = (Ok resp, w1) ->
  Status resp = "200 OK" ->
  io_CopyDiscard resp w1 = (Ok n, w2) ->
  check_server client i msg s =
    (Normal msg,
     mk_St (conf s) (body_Close resp w2)
       (io_log s ++ [ev_Do client (get_request (UserAgent (conf s)) i) (Ok resp); ev_Copy resp (Ok n); ev_Close resp])).
Proof.
  intros Hu Hdo Hst Hcp. unfold_check. rewrite Hu. rt_simpl.
  rewrite Hdo. rt_simpl. rewrite Hcp. rt_simpl. rewrite Hst. by rewrite <- !app_assoc.
Qed.

(** C7. A response whose status line is anything but ["200 OK"] appends
    exactly ["<Label> is seems down."] and ["Invalid Status Code"], in
    this order, whatever its numeric code: ["200 Ok"] with code 200 is
    reported down.  The body is still drained and closed. *)
Theorem check_server_wrong_status u resp w1 n w2 :
  url_Parse (URL i) = Ok u ->
  client_Do client (get_request (UserAgent (conf s)) i) (world s) = (Ok resp, w1) ->
  Status resp <> "200 OK" ->
  io_CopyDiscard resp w1 = (Ok n, w2) ->
  check_server client i msg s =
    (Normal (msg ++ [seems_down (Label i); "Invalid Status Code"]),
     mk_St (conf s) (body_Close resp w2)
       (io_log s ++ [ev_Do client (get_request (UserAgent (conf s)) i) (Ok resp); ev_Copy resp (Ok n); ev_Close resp])).
Proof.
  intros Hu Hdo Hst Hcp. unfold_check. rewrite Hu. rt_simpl.
  rewrite Hdo. rt_simpl. rewrite Hcp. rt_simpl.
  apply String.eqb_neq in Hst. rewrite Hst. by rewrite <- !app_assoc.
Qed.

(** C9. An error while draining a response body is fatal, whatever the
    status was: the entries of this server and of the servers before it
    are not reported, and the body is not closed. *)
Theorem check_server_drain_error u resp w1 e w2 :
  url_Parse (URL i) = Ok u ->
  client_Do client (get_request (UserAgent (conf s)) i) (world s) = (Ok resp, w1) ->
  io_CopyDiscard resp w1 = (Err e, w2) ->
  check_server client i msg s =
    (Fatal e, mk_St (conf s) w2 (io_log s ++ [ev_Do client (get_request (UserAgent (conf s)) i) (Ok resp); ev_Copy resp (Err e)])).
Proof.
  intros Hu Hdo Hcp. unfold_check. rewrite Hu. rt_simpl.
  rewrite Hdo. rt_simpl. rewrite Hcp. rt_simpl. by rewrite <- !app_assoc.
Qed.
End Branches.

(** * The loop *)

Section LoopTheorems.
Context {W : Type} `{!Runtime W}.

Lemma check_servers_cons client i srvs msg s :
  check_servers client (i :: srvs) msg s
  = bind (check_server client i msg) (check_servers client srvs) s.
Proof. reflexivity. Qed.

(** The loop's log and result when it ends normally. *)
Lemma check_servers_normal_log client srvs msg0 s msg s' :
  check_servers client srvs msg0 s = (Normal msg, s') ->
  conf s' = conf s /\
  exists new, io_log s' = io_log s ++ new /\
    (gets new).*1 = get_request (UserAgent (conf s)) <$> srvs /\
    clients new = (fun _ => client) <$> srvs /\
    sends new = [] /\
    msg = msg0 ++ expected_msg (zip srvs (verdict_of <$> (gets new).*2)).
Proof.
  revert msg0 s. induction srvs as [|i srvs IH]; intros msg0 s H.
  - cbv [check_servers forRange ret] in H. simplify_eq. split; [done|].
    exists []. rewrite !app_nil_r. by split_and!.
  - rewrite check_servers_cons in H.
    destruct (check_server client i msg0 s) as [[m1|e] s1] eqn:E;
      [|by rewrite (bind_run_fatal _ _ _ _ _ E) in H].
    rewrite (bind_run_normal _ _ _ _ _ E) in H.
    destruct (check_server_normal _ _ _ _ _ _ E)
      as (Hc1 & r & new1 & Hl1 & (Hg1 & Hcl1 & Hs1) & ->).
    destruct (IH _ _ H) as (Hc2 & new2 & Hl2 & Hg2 & Hcl2 & Hs2 & ->).
    split; [congruence|]. exists (new1 ++ new2).
    rewrite Hl2, Hl1, <- app_assoc. split; [done|].
    rewrite gets_app, clients_app, sends_app, Hg1, Hcl1, Hs1, Hs2, Hcl2.
    rewrite Hc1 in Hg2. rewrite !fmap_app, Hg2.
    cbn [app fmap list_fmap zip fst snd]. rewrite expected_msg_cons, <- app_assoc.
    by split_and!.
Qed.

(** C2. A loop that ends normally sent exactly one [GET] per configured
    server, in the order of the configuration, each with the user agent
    of [conf] and through the loop's client; it sent no notification; and
    the failure list it built is the abstract failure list of the
    verdicts of the answers it got. *)
Theorem check_servers_normal client srvs msg0 s msg s' :
  check_servers client srvs msg0 s = (Normal msg, s') ->
  conf s' = conf s /\
  exists new, io_log s' = io_log s ++ new /\
    (gets new).*1 = get_request (UserAgent (conf s)) <$> srvs /\
    clients new = (fun _ => client) <$> srvs /\
    sends new = [] /\
    msg = msg0 ++ expected_msg (zip srvs (verdict_of <$> (gets new).*2)).
Proof. apply check_servers_normal_log. Qed.

(** C4. A loop that ends fatally stopped at one server [i]: the servers
    before it were each sent their [GET], in order; then either [i]'s URL
    did not parse and nothing was sent for it, or [i] answered and
    draining its body failed, which is the last thing the loop did.  The
    servers after [i] were never contacted, and nothing was notified. *)
Theorem check_servers_fatal client srvs msg0 s e s' :
  check_servers client srvs msg0 s = (Fatal e, s') ->
  conf s' = conf s /\
  exists pre i post new, srvs = pre ++ i :: post /\ io_log s' = io_log s ++ new /\
    sends new = [] /\
    ((url_Parse (URL i) = Err e /\
      (gets new).*1 = get_request (UserAgent (conf s)) <$> pre) \/
     ((gets new).*1 = get_request (UserAgent (conf s)) <$> pre ++ [i] /\
      exists resp, last new = Some (ev_Copy resp (Err e)) /\
        last (gets new) = Some (get_request (UserAgent (conf s)) i, Ok resp))).
Proof.
  revert msg0 s. induction srvs as [|j srvs IH]; intros msg0 s H;
    [by cbv [check_servers forRange ret] in H|].
  rewrite check_servers_cons in H.
  destruct (check_server client j msg0 s) as [[m1|e1] s1] eqn:E.
  - rewrite (bind_run_normal _ _ _ _ _ E) in H.
    destruct (check_server_normal _ _ _ _ _ _ E) as (Hc1 & r & new1 & Hl1 & (Hg1 & _ & Hs1) & _).
    destruct (IH _ _ H) as (Hc2 & pre & i & post & new2 & -> & Hl2 & Hs2 & Hcase).
    split; [congruence|]. exists (j :: pre), i, post, (new1 ++ new2).
    split; [done|]. split; [by rewrite Hl2, Hl1, app_assoc|].
    split; [by rewrite sends_app, Hs1, Hs2|].
    rewrite Hc1 in Hcase. rewrite gets_app, Hg1, fmap_app.
    destruct Hcase as [[Hu Hg2]|(Hg2 & resp & Hlast & Hlg)]; [left|right].
    + by rewrite Hg2.
    + split; [by rewrite Hg2|]. exists resp.
      by rewrite !last_app, Hlast, Hlg.
  - rewrite (bind_run_fatal _ _ _ _ _ E) in H. simplify_eq.
    destruct (check_server_fatal _ _ _ _ _ _ E) as (Hc & new & Hl & Hcase).
    split; [done|]. exists [], j, srvs, new. split_and!; [done|done| |].
    + destruct Hcase as [[_ ->]|(resp & (_ & _ & Hs) & _)]; done.
    + destruct Hcase as [[Hu ->]|(resp & (Hg & _ & _) & Hlast)]; [by left|right].
      rewrite Hg. split; [done|]. by exists resp.
Qed.

(** Whatever way it ends, the loop keeps [conf], sends every request
    through its client and sends no notification. *)
Lemma check_servers_log client srvs msg0 s r s' :
  check_servers client srvs msg0 s = (r, s') ->
  conf s' = conf s /\
  exists new, io_log s' = io_log s ++ new /\ Forall (eq client) (clients new) /\ sends new = [].
Proof.
  revert msg0 s. induction srvs as [|j srvs IH]; intros msg0 s H.
  - cbv [check_servers forRange ret] in H. simplify_eq. split; [done|].
    exists []. rewrite app_nil_r. by split_and!.
  - rewrite check_servers_cons in H.
    destruct (check_server client j msg0 s) as [[m1|e1] s1] eqn:E.
    + rewrite (bind_run_normal _ _ _ _ _ E) in H.
      destruct (check_server_normal _ _ _ _ _ _ E) as (Hc1 & rr & new1 & Hl1 & (_ & Hcl1 & Hs1) & _).
      destruct (IH _ _ H) as (Hc2 & new2 & Hl2 & Hcl2 & Hs2).
      split; [congruence|]. exists (new1 ++ new2).
      rewrite Hl2, Hl1, <- app_assoc, clients_app, sends_app, Hcl1, Hs1, Hs2.
      split_and!; [done|by constructor|done].
    + rewrite (bind_run_fatal _ _ _ _ _ E) in H. simplify_eq.
      destruct (check_server_fatal _ _ _ _ _ _ E) as (Hc & new & Hl & Hcase).
      split; [done|]. exists new. split; [done|].
      destruct Hcase as [[_ ->]|(resp & (_ & Hcl & Hs) & _)]; [done|].
      rewrite Hcl, Hs. split; [by constructor|done].
Qed.

(** The log of a loop that ends normally is one block per server, in the
    order of the servers. *)
Lemma check_servers_blocks client srvs msg0 s msg s' :
  check_servers client srvs msg0 s = (Normal msg, s') ->
  exists blks, io_log s' = io_log s ++ mjoin blks /\
    Forall2 (fun i blk => server_block client (get_request (UserAgent (conf s)) i) blk) srvs blks.
Proof.
  revert msg0 s. induction srvs as [|j srvs IH]; intros msg0 s H.
  - cbv [check_servers forRange ret] in H. simplify_eq. exists []. by rewrite app_nil_r.
  - rewrite check_servers_cons in H.
    destruct (check_server client j msg0 s) as [[m1|e1] s1] eqn:E;
      [|by rewrite (bind_run_fatal _ _ _ _ _ E) in H].
    rewrite (bind_run_normal _ _ _ _ _ E) in H.
    destruct (check_server_block _ _ _ _ _ _ E) as (blk & Hl1 & Hb).
    destruct (check_server_normal _ _ _ _ _ _ E) as (Hc1 & _).
    destruct (IH _ _ H) as (blks & Hl2 & Hbs). rewrite Hc1 in Hbs.
    exists (blk :: blks). rewrite Hl2, Hl1, <- app_assoc. split; [done|]. by constructor.
Qed.
(** One check sends at most one request and adds at most two entries. *)
Lemma check_server_bound client i msg s r s' :
  check_server client i msg s = (r, s') ->
  exists new, io_log s' = io_log s ++ new /\ length (gets new) <= 1 /\
    forall msg', r = Normal msg' -> length msg' <= length msg + 2.
Proof.
  destruct r as [msg'|e]; intros H.
  - destruct (check_server_normal _ _ _ _ _ _ H) as (_ & rr & new & Hl & (Hg & _) & ->).
    exists new. rewrite Hg. split_and!; [done|simpl; lia|].
    intros ? [= <-]. rewrite length_app. destruct (verdict_of rr); simpl; lia.
  - destruct (check_server_fatal _ _ _ _ _ _ H) as (_ & new & Hl & [[_ ->]|(resp & (Hg & _) & _)]).
    + exists []. split_and!; [done|simpl; lia|done].
    + exists new. rewrite Hg. split_and!; [done|simpl; lia|done].
Qed.

(** The loop sends at most one request per server and adds at most two
    entries per server. *)
Lemma check_servers_bound client srvs msg0 s r s' :
  check_servers client srvs msg0 s = (r, s') ->
  exists new, io_log s' = io_log s ++ new /\ length (gets new) <= length srvs /\
    forall msg, r = Normal msg -> length msg <= length msg0 + 2 * length srvs.
Proof.
  revert msg0 s. induction srvs as [|j srvs IH]; intros msg0 s H.
  - cbv [check_servers forRange ret] in H. simplify_eq.
    exists []. rewrite app_nil_r. split_and!; [done|simpl; lia|]. intros ? [= ->]. lia.
  - rewrite check_servers_cons in H.
    destruct (check_server client j msg0 s) as [[m1|e1] s1] eqn:E;
      destruct (check_server_bound _ _ _ _ _ _ E) as (new1 & Hl1 & Hg1 & Hm1).
    + rewrite (bind_run_normal _ _ _ _ _ E) in H.
      destruct (IH _ _ H) as (new2 & Hl2 & Hg2 & Hm2).
      exists (new1 ++ new2). rewrite Hl2, Hl1, <-app_assoc, gets_app, length_app.
      split_and!; [done|simpl; lia|]. intros msg Hr.
      specialize (Hm1 m1 eq_refl). specialize (Hm2 msg Hr). simpl. lia.
    + rewrite (bind_run_fatal _ _ _ _ _ E) in H. simplify_eq.
      exists new1. split_and!; [done|simpl; lia|done].
Qed.
End LoopTheorems.

(** * Concrete runs *)

Section Examples.
#[local] Instance chk_rt : Runtime script := scripted (fun _ => Ok None) ex_url_Parse.

Definition chk_client : http_Client :=
  mk_http_Client (Some (mk_http_Transport (Some (mk_tls_Config true)))).

Definition chk_conf (srvs : list servers) : Config :=
  mk_Config srvs "uptime-bot" (mk_pushoverCredential "T" "R").

Definition chk_a : servers := mk_servers "https://a.example" "a".
Definition chk_b : servers := mk_servers "https://b.example" "b".
Definition chk_bad : servers := mk_servers "http://[::1" "bad".

(** A state whose world answers the requests and the copies in order. *)
Definition chk_state (srvs : list servers) (answers : list (result http_Response string))
    (copies : list (result Z string)) : St script :=
  mk_St (chk_conf srvs) (mk_script [] answers copies []) [].

Definition chk_s1 := chk_state [chk_a; chk_b] [Ok (ex_response "200 OK" 200); Err "connection refused"] [].
Definition chk_run1 := check_servers chk_client [chk_a; chk_b] ["x"] chk_s1.

Lemma check_servers_normal_witness :
  chk_run1 = (Normal ["x"; "b is seems down."], chk_run1.2) /\
  (conf chk_run1.2 = conf chk_s1 /\
   exists new, io_log chk_run1.2 = io_log chk_s1 ++ new /\
     (gets new).*1 = get_request (UserAgent (conf chk_s1)) <$> [chk_a; chk_b] /\
     clients new = (fun _ => chk_client) <$> [chk_a; chk_b] /\
     sends new = [] /\
     ["x"; "b is seems down."] =
       ["x"] ++ expected_msg (zip [chk_a; chk_b] (verdict_of <$> (gets new).*2))).
Proof.
  split; [reflexivity|].
  apply (check_servers_normal chk_client [chk_a; chk_b] ["x"] chk_s1 _ chk_run1.2).
  reflexivity.
Defined.

Definition chk_s2 := chk_state [chk_a; chk_bad; chk_b] [Err "connection refused"] [].
Definition chk_run2 := check_servers chk_client [chk_a; chk_bad; chk_b] [] chk_s2.

Lemma check_servers_fatal_witness :
  chk_run2 = (Fatal "missing ']' in host", chk_run2.2) /\
  (conf chk_run2.2 = conf chk_s2 /\
   exists pre i post new, [chk_a; chk_bad; chk_b] = pre ++ i :: post /\
     io_log chk_run2.2 = io_log chk_s2 ++ new /\ sends new = [] /\
     ((url_Parse (URL i) = Err "missing ']' in host" /\
       (gets new).*1 = get_request (UserAgent (conf chk_s2)) <$> pre) \/
      ((gets new).*1 = get_request (UserAgent (conf chk_s2)) <$> pre ++ [i] /\
       exists resp, last new = Some (ev_Copy resp (Err "missing ']' in host")) /\
         last (gets new) = Some (get_request (UserAgent (conf chk_s2)) i, Ok resp)))).
Proof.
  split; [reflexivity|].
  apply (check_servers_fatal chk_client [chk_a; chk_bad; chk_b] [] chk_s2 _ chk_run2.2).
  reflexivity.
Defined.

Lemma check_server_bad_url_witness :
  url_Parse (URL chk_bad) = Err "missing ']' in host" /\
  check_server chk_client chk_bad [] (chk_state [] [] []) =
    (Fatal "missing ']' in host", chk_state [] [] []).
Proof. split; [reflexivity|]. apply check_server_bad_url. reflexivity. Defined.

Lemma check_server_unreachable_witness :
  let s := chk_state [] [Err "connection refused"] [] in
  url_Parse (URL chk_a) = Ok tt /\
  client_Do chk_client (get_request (UserAgent (conf s)) chk_a) (world s)
    = (Err "connection refused", mk_script [] [] [] []) /\
  check_server chk_client chk_a ["x"] s =
    (Normal (["x"] ++ [seems_down (Label chk_a)]),
     mk_St (conf s) (mk_script [] [] [] [])
       (io_log s ++ [ev_Do chk_client (get_request (UserAgent (conf s)) chk_a)
                       (Err "connection refused")])).
Proof.
  split_and!; [reflexivity|reflexivity|].
  apply (check_server_unreachable _ _ _ _ tt "connection refused"); reflexivity.
Defined.

Lemma check_server_healthy_witness :
  let resp := ex_response "200 OK" 200 in
  let s := chk_state [] [Ok resp] [Ok 1234%Z] in
  url_Parse (URL chk_a) = Ok tt /\
  client_Do chk_client (get_request (UserAgent (conf s)) chk_a) (world s)
    = (Ok resp, mk_script [] [] [Ok 1234%Z] []) /\
  Status resp = "200 OK" /\
  io_CopyDiscard resp (mk_script [] [] [Ok 1234%Z] []) = (Ok 1234%Z, mk_script [] [] [] []) /\
  check_server chk_client chk_a ["x"] s =
    (Normal ["x"],
     mk_St (conf s) (body_Close resp (mk_script [] [] [] []))
       (io_log s ++ [ev_Do chk_client (get_request (UserAgent (conf s)) chk_a) (Ok resp);
                     ev_Copy resp (Ok 1234%Z); ev_Close resp])).
Proof.
  split_and!; [reflexivity ..|].
  apply (check_server_healthy _ _ _ _ tt _ (mk_script [] [] [Ok 1234%Z] []) 1234%Z);
    reflexivity.
Defined.

(** The status line ["200 Ok"] with code 200 is reported down. *)
Lemma check_server_wrong_status_witness :
  let resp := ex_response "200 Ok" 200 in
  let s := chk_state [] [Ok resp] [] in
  url_Parse (URL chk_a) = Ok tt /\
  client_Do chk_client (get_request (UserAgent (conf s)) chk_a) (world s)
    = (Ok resp, mk_script [] [] [] []) /\
  StatusCode resp = 200%Z /\ Status resp <> "200 OK" /\
  io_CopyDiscard resp (mk_script [] [] [] []) = (Ok 0%Z, mk_script [] [] [] []) /\
  check_server chk_client chk_a [] s =
    (Normal ([] ++ [seems_down (Label chk_a); "Invalid Status Code"]),
     mk_St (conf s) (body_Close resp (mk_script [] [] [] []))
       (io_log s ++ [ev_Do chk_client (get_request (UserAgent (conf s)) chk_a) (Ok resp);
                     ev_Copy resp (Ok 0%Z); ev_Close resp])).
Proof.
  split_and!; [reflexivity|reflexivity|reflexivity|done|reflexivity|].
  apply (check_server_wrong_status _ _ _ _ tt _ (mk_script [] [] [] []) 0%Z);
    [reflexivity|reflexivity|done|reflexivity].
Defined.

Lemma check_server_drain_error_witness :
  let resp := ex_response "503 Service Unavailable" 503 in
  let s := chk_state [] [Ok resp] [Err "unexpected EOF"] in
  url_Parse (URL chk_a) = Ok tt /\
  client_Do chk_client (get_request (UserAgent (conf s)) chk_a) (world s)
    = (Ok resp, mk_script [] [] [Err "unexpected EOF"] []) /\
  io_CopyDiscard resp (mk_script [] [] [Err "unexpected EOF"] [])
    = (Err "unexpected EOF", mk_script [] [] [] []) /\
  check_server chk_client chk_a ["x"] s =
    (Fatal "unexpected EOF",
     mk_St (conf s) (mk_script [] [] [] [])
       (io_log s ++ [ev_Do chk_client (get_request (UserAgent (conf s)) chk_a) (Ok resp);
                     ev_Copy resp (Err "unexpected EOF")])).
Proof.
  split_and!; [reflexivity ..|].
  apply (check_server_drain_error _ _ _ _ tt _ (mk_script [] [] [Err "unexpected EOF"] []));
    reflexivity.
Defined.
End Examples.
