(* ===== verification/Notifier.v ===== *)
(** * The notification (src/main.go, lines 77-82 and 85-97)

    [sendPushover] builds a Pushover application from [conf]'s app token,
    a message with the fixed title ["uptime checker"], the given priority
    and HTML rendering, and a recipient from [conf]'s recipient token, and
    makes one call to the Pushover API, whose error it returns.  [notify]
    is the end of [main]: when the failure list is not empty, it is joined
    with ["<br>"] and sent with priority 0, and an error of the call is
    fatal. *)

From Stdlib Require Import String ZArith.
From stdpp Require Import base list strings.
From S2P Require Import Prelude Config Runtime.

Section Notifier.
Context {W : Type} `{!Runtime W}.

(** Lines 85-97. *)
Definition sendPushover (message : string) (priority : Z) : M W (result unit string) :=
  let* c := getConf in
  let app := pushover_New (Token (Credential c)) in
  SendMessage app
    (mk_pushover_Message message "uptime checker" priority true)
    (pushover_NewRecipient (RecipientToken (Credential c))).

(** Lines 77-82. *)
Definition notify (msg : list string) : M W unit :=
  if bool_decide (0 < length msg) then
    let* err := sendPushover (strings_Join msg "<br>") 0 in
    match err with
    | Err e => fatal e
    | Ok _ => ret tt
    end
  else ret tt.
End Notifier.

(** The notification [main] sends for the failure list [msg] under the
    configuration [c]. *)
Definition notification (c : Config) (msg : list string)
  : pushover_Pushover * pushover_Message * pushover_Recipient :=
  (pushover_New (Token (Credential c)),
   mk_pushover_Message (strings_Join msg "<br>") "uptime checker" 0 true,
   pushover_NewRecipient (RecipientToken (Credential c))).

(** * Lemmas *)

Section NotifierLemmas.
Context {W : Type} `{!Runtime W}.

(** An empty failure list sends nothing. *)
Lemma notify_nil s : notify [] s = (Normal tt, s).
Proof. reflexivity. Qed.

(** C14. A non-empty failure list makes exactly one call to the Pushover
    API, with the application and recipient tokens of [conf], the entries
    joined by ["<br>"] as the message, the title ["uptime checker"],
    priority 0 and HTML on; the run goes on if the call succeeds and is
    fatal with the call's error otherwise. *)
Theorem notify_sends_one msg s a w' :
  msg <> [] ->
  app_SendMessage (notification (conf s) msg).1.1 (notification (conf s) msg).1.2
    (notification (conf s) msg).2 (world s) = (a, w') ->
  notify msg s =
    (match a with Ok _ => Normal tt | Err e => Fatal e end,
     mk_St (conf s) w'
       (io_log s ++ [ev_Send (notification (conf s) msg).1.1 (notification (conf s) msg).1.2
                       (notification (conf s) msg).2 a])).
Proof.
  intros Hne Hsend. unfold notify.
  rewrite bool_decide_true by (destruct msg; [done|simpl; lia]).
  unfold sendPushover, SendMessage, call, getConf. rt_simpl.
  unfold notification in Hsend. simpl in Hsend. rewrite Hsend.
  by destruct a.
Qed.

(** The log of a notification step: nothing for an empty list, the one
    call otherwise. *)
Lemma notify_log msg s r s' :
  notify msg s = (r, s') ->
  conf s' = conf s /\
  exists new, io_log s' = io_log s ++ new /\ gets new = [] /\ clients new = [] /\
    sends new = (if decide (msg = []) then [] else [notification (conf s) msg]) /\
    ((r = Normal tt /\ (new = [] \/ exists a m rc, new = [ev_Send a m rc (Ok tt)])) \/
     exists a m rc e, new = [ev_Send a m rc (Err e)] /\ r = Fatal e).
Proof.
  destruct (decide (msg = [])) as [->|Hne].
  - rewrite notify_nil. intros [= <- <-]. split; [done|].
    exists []. rewrite app_nil_r. split_and!; [done..|left; split; [done|by left]].
  - unfold notify. rewrite bool_decide_true by (destruct msg; [done|simpl; lia]).
    unfold sendPushover, SendMessage, call, getConf. rt_simpl.
    destruct (app_SendMessage _ _ _ (world s)) as [a w'] eqn:E.
    destruct a; rt_simpl; intros [= <- <-]; (split; [done|]);
      (eexists; split_and!; [done..|]); [|right; by do 4 eexists].
    left. destruct a. split; [done|right]. by do 3 eexists.
Qed.
End NotifierLemmas.

(** * A concrete run *)

Section Examples.
#[local] Instance ntf_rt : Runtime script := scripted (fun _ => Ok None) ex_url_Parse.

Definition ntf_msg : list string := ["a is seems down."; "Invalid Status Code"].
Definition ntf_state : St script :=
  mk_St (mk_Config [] "uptime-bot" (mk_pushoverCredential "T" "R"))
        (mk_script [] [] [] [Err "pushover: invalid token"]) [].

(** A failing delivery is fatal. *)
Lemma notify_sends_one_witness :
  ntf_msg <> [] /\
  app_SendMessage (notification (conf ntf_state) ntf_msg).1.1
    (notification (conf ntf_state) ntf_msg).1.2 (notification (conf ntf_state) ntf_msg).2
    (world ntf_state) = (Err "pushover: invalid token", mk_script [] [] [] []) /\
  notify ntf_msg ntf_state =
    (Fatal "pushover: invalid token",
     mk_St (conf ntf_state) (mk_script [] [] [] [])
       (io_log ntf_state ++
          [ev_Send (notification (conf ntf_state) ntf_msg).1.1
             (notification (conf ntf_state) ntf_msg).1.2 (notification (conf ntf_state) ntf_msg).2
             (Err "pushover: invalid token")])).
Proof.
  split_and!; [done|reflexivity|].
  apply (notify_sends_one ntf_msg ntf_state (Err "pushover: invalid token") (mk_script [] [] [] []));
    [done|reflexivity].
Defined.
End Examples.
