(* ===== verification/Main.v ===== *)
(** * The whole run (src/main.go, lines 36-83)

    [main] reads the file named by [-config] ([conf.yaml] by default),
    decodes it onto the global [conf], builds the client of lines 49-53,
    runs the check loop over [conf.Servers] and ends with the notification
    step.  [run_main] starts it from the zero [conf] and an empty log, as
    the process does, and [exit_code] is the status the process exits
    with: 0 when [main] returns, 1 after [log.Fatalln].  [run_program] is
    the whole process on its command line: the flags of lines 37-38
    (Flag.v), then [run_main] on the file they name.

    The theorems describe every way a run can end: a normal run sent one
    [GET] per configured server and exactly one notification when and only
    when the abstract failure list is not empty; a configuration error
    ends the run before any request; a fatal run delivered no
    notification; every request goes through the client that skips TLS
    certificate checks; the requests and entries are bounded by the
    servers; the command line selects the file, or ends the process with
    status 0 or 2 before any I/O. *)

From Stdlib Require Import String ZArith.
From stdpp Require Import base list strings.
From S2P Require Import Prelude Flag Config Runtime Checker Notifier.

(** Lines 49-53: [client.Transport = &http.Transport{TLSClientConfig:
    &tls.Config{InsecureSkipVerify: true}}]. *)
Definition new_client : http_Client :=
  mk_http_Client (Some (mk_http_Transport (Some (mk_tls_Config true)))).

Section Main.
Context {W : Type} `{!Runtime W}.

(** Lines 40-82. *)
Definition main (confFile : string) : M W unit :=
  let* f := ReadFile confFile in
  match f with
  | Err e => fatal e
  | Ok data =>
      let* err := Unmarshal data in
      match err with
      | Err e => fatal e
      | Ok _ =>
          let client := new_client in
          let* c := getConf in
          let* msg := check_servers client (Servers c) [] in
          notify msg
      end
  end.

(** The process: [var conf Config] is zero and nothing was logged. *)
Definition run_main (confFile : string) (w : W) : exit unit * St W :=
  main confFile (mk_St zero_Config w []).
End Main.

(** [os.Exit] status of a run. *)
Definition exit_code {A} (r : exit A) : Z :=
  match r with Normal _ => 0 | Fatal _ => 1 end.

Section Program.
Context {W : Type} `{!Runtime W}.

(** The process on its command line [os.Args[1:]]: lines 37-38 define
    [-config] on [CommandLine] and parse the arguments, and [main] goes on
    with the file the flag names.  The result is the exit status and the
    state at the exit: a panic of [StringVar] exits with status 2 as Go's
    panics do, and so does a rejected command line (status 0 for a help
    request), before any other I/O.  [None] only when the flag loop runs
    out of fuel, which [Flag.flag_Parse_some] rules out. *)
Definition run_program (arguments : list string) (w : W) : option (Z * St W) :=
  match define_config CommandLine with
  | Err _ => Some (2%Z, mk_St zero_Config w [])
  | Ok f =>
      match flag_Parse arguments f with
      | None => None
      | Some (ExitWith code _) => Some (code, mk_St zero_Config w [])
      | Some (Parsed f') =>
          let '(r, s) := run_main (confFile_of f') w in Some (exit_code r, s)
      end
  end.
End Program.

(** * Lemmas *)

Section MainLemmas.
Context {W : Type} `{!Runtime W}.

(** A run, step by step: read the file, parse and decode it onto the
    zero configuration, then check and notify. *)
Lemma run_main_eq confFile w :
  run_main confFile w =
    match os_ReadFile confFile w with
    | (Err e, w1) => (Fatal e, mk_St zero_Config w1 [ev_ReadFile confFile (Err e)])
    | (Ok data, w1) =>
        match yaml_Parse data with
        | Err e => (Fatal e, mk_St zero_Config w1 [ev_ReadFile confFile (Ok data)])
        | Ok doc =>
            match yaml_Unmarshal doc zero_Config with
            | (c, Err e) => (Fatal e, mk_St c w1 [ev_ReadFile confFile (Ok data)])
            | (c, Ok _) =>
                bind (check_servers new_client (Servers c) []) notify
                  (mk_St c w1 [ev_ReadFile confFile (Ok data)])
            end
        end
    end.
Proof.
  unfold run_main, main, ReadFile, Unmarshal, call, getConf, setConf. rt_simpl.
  destruct (os_ReadFile confFile w) as [[data|e] w1]; rt_simpl; [|done].
  destruct (yaml_Parse data) as [doc|e]; rt_simpl; [|done].
  by destruct (yaml_Unmarshal doc zero_Config) as [c [[]|e]].
Qed.

(** After a successful load, the run is the loop and the notification. *)
Lemma run_main_loaded confFile w data w1 doc c u :
  os_ReadFile confFile w = (Ok data, w1) ->
  yaml_Parse data = Ok doc ->
  yaml_Unmarshal doc zero_Config = (c, Ok u) ->
  run_main confFile w =
    bind (check_servers new_client (Servers c) []) notify
      (mk_St c w1 [ev_ReadFile confFile (Ok data)]).
Proof. intros Hr Hp Hu. by rewrite run_main_eq, Hr, Hp, Hu. Qed.
End MainLemmas.

(** * What a run does *)

Section MainTheorems.
Context {W : Type} `{!Runtime W}.

(** C1. A run that ends normally sent one [GET] per configured server,
    in the order of the configuration and with its user agent, and sent
    exactly one notification when the failure list of the verdicts of
    the answers is not empty and none when it is empty; the notification
    carries the entries joined by ["<br>"], in the order of the servers,
    with the configured tokens. *)
Theorem main_notifies confFile w s' :
  run_main confFile w = (Normal tt, s') ->
  let c := conf s' in
  let msg := expected_msg (zip (Servers c) (verdict_of <$> (gets (io_log s')).*2)) in
  (gets (io_log s')).*1 = get_request (UserAgent c) <$> Servers c /\
  sends (io_log s') = (if decide (msg = []) then [] else [notification c msg]).
Proof.
  rewrite run_main_eq. intros H.
  destruct (os_ReadFile confFile w) as [[data|e] w1]; [|done].
  destruct (yaml_Parse data) as [doc|e]; [|done].
  destruct (yaml_Unmarshal doc zero_Config) as [c [u|e]]; [|done].
  destruct (check_servers new_client (Servers c) [] (mk_St c w1 [ev_ReadFile confFile (Ok data)]))
    as [[msg|e] s1] eqn:E;
    [|by rewrite (bind_run_fatal _ _ _ _ _ E) in H].
  rewrite (bind_run_normal _ _ _ _ _ E) in H.
  destruct (check_servers_normal_log _ _ _ _ _ _ E) as (Hc1 & new1 & Hl1 & Hg1 & _ & Hs1 & ->).
  destruct (notify_log _ _ _ _ H) as (Hc2 & new2 & Hl2 & Hg2 & _ & Hs2 & _).
  cbn [conf io_log] in Hc1, Hl1, Hg1. rewrite Hc1 in Hc2, Hs2.
  rewrite Hl2, Hl1, Hc2. autorewrite with go. rewrite Hg2, Hs1, Hs2.
  autorewrite with go. by rewrite Hg1.
Qed.

(** C3. When the configuration file cannot be read, cannot be parsed, or
    does not decode onto the configuration, the run ends through
    [log.Fatalln] with that error and exit status 1, before any request
    and without notification. *)
Theorem main_config_error confFile w e :
  (os_ReadFile confFile w).1 = Err e \/
  (exists data, (os_ReadFile confFile w).1 = Ok data /\
     (yaml_Parse data = Err e \/
      exists doc, yaml_Parse data = Ok doc /\ (yaml_Unmarshal doc zero_Config).2 = Err e)) ->
  (run_main confFile w).1 = Fatal e /\ exit_code (run_main confFile w).1 = 1%Z /\
  gets (io_log (run_main confFile w).2) = [] /\ sends (io_log (run_main confFile w).2) = [].
Proof.
  rewrite run_main_eq.
  destruct (os_ReadFile confFile w) as [[data|e'] w1]; simpl;
    intros [He|(data' & [= <-] & [Hp|(doc & Hp & Hu)])]; simplify_eq; [| |done].
  - by rewrite Hp.
  - rewrite Hp. by destruct (yaml_Unmarshal doc zero_Config) as [c r]; simpl in Hu; subst r.
Qed.

(** C5. A fatal run delivered no notification: either it attempted none
    (an error of the configuration, or of the check loop, which drops
    the failures found so far), or its only attempt is the last thing it
    did and failed with the error it ends with. *)
Theorem main_fatal_no_delivery confFile w e s' :
  run_main confFile w = (Fatal e, s') ->
  sends (io_log s') = [] \/
  exists a m rc, sends (io_log s') = [(a, m, rc)] /\
                 last (io_log s') = Some (ev_Send a m rc (Err e)).
Proof.
  rewrite run_main_eq.
  destruct (os_ReadFile confFile w) as [[data|e'] w1]; [|intros [= <- <-]; by left].
  destruct (yaml_Parse data) as [doc|e']; [|intros [= <- <-]; by left].
  destruct (yaml_Unmarshal doc zero_Config) as [c [u|e']]; [|intros [= <- <-]; by left].
  intros H.
  destruct (check_servers new_client (Servers c) [] (mk_St c w1 [ev_ReadFile confFile (Ok data)]))
    as [r s1] eqn:E.
  destruct (check_servers_log _ _ _ _ _ _ E) as (_ & new1 & Hl1 & _ & Hs1).
  cbn [io_log] in Hl1. destruct r as [msg|e1].
  - rewrite (bind_run_normal _ _ _ _ _ E) in H.
    destruct (notify_log _ _ _ _ H) as (_ & new2 & Hl2 & _ & _ & _ & [[[=] _]|(a & m & rc & e2 & -> & [= ->])]).
    right. exists a, m, rc. rewrite Hl2, Hl1. autorewrite with go. rewrite Hs1.
    split; [done|]. by rewrite last_app.
  - rewrite (bind_run_fatal _ _ _ _ _ E) in H. simplify_eq. left.
    rewrite Hl1. autorewrite with go. done.
Qed.

(** C11. With a configuration that lists no server, the run makes no
    request, sends no notification and ends normally (exit status 0):
    its only I/O is reading the file. *)
Theorem main_no_servers confFile w data w1 doc c u :
  os_ReadFile confFile w = (Ok data, w1) ->
  yaml_Parse data = Ok doc ->
  yaml_Unmarshal doc zero_Config = (c, Ok u) ->
  Servers c = [] ->
  run_main confFile w = (Normal tt, mk_St c w1 [ev_ReadFile confFile (Ok data)]).
Proof. intros Hr Hp Hu Hs. by rewrite (run_main_loaded _ _ _ _ _ _ _ Hr Hp Hu), Hs. Qed.

(** C12. yaml.v3 takes the lower-cased field name as the key of an
    untagged field, so a configuration written with the key [Servers]
    (as the spec's schema has it) and no key [servers] decodes without
    error to an empty server list: the run checks nothing, notifies
    nothing, and exits with status 0. *)
Theorem main_capitalized_servers_key confFile w data w1 ps c u :
  os_ReadFile confFile w = (Ok data, w1) ->
  yaml_Parse data = Ok (Some (MappingNode ps)) ->
  "servers" ∉ ps.*1 ->
  yaml_Unmarshal (Some (MappingNode ps)) zero_Config = (c, Ok u) ->
  run_main confFile w = (Normal tt, mk_St c w1 [ev_ReadFile confFile (Ok data)]).
Proof.
  intros Hr Hp Hn Hu. rewrite (run_main_loaded _ _ _ _ _ _ _ Hr Hp Hu).
  assert (Hs : Servers c = []).
  { pose proof (Unmarshal_keeps_Servers ps zero_Config Hn) as Hk. by rewrite Hu in Hk. }
  by rewrite Hs.
Qed.

(** C15. Every request of a run is sent through a client whose transport
    does not verify the server's TLS certificate. *)
Theorem main_skips_tls_verification confFile w :
  Forall (fun cl => exists t tc, Transport cl = Some t /\ TLSClientConfig t = Some tc /\
                                 InsecureSkipVerify tc = true)
    (clients (io_log (run_main confFile w).2)).
Proof.
  rewrite run_main_eq.
  destruct (os_ReadFile confFile w) as [[data|e'] w1]; [|by constructor].
  destruct (yaml_Parse data) as [doc|e']; [|by constructor].
  destruct (yaml_Unmarshal doc zero_Config) as [c [u|e']]; [|by constructor].
  destruct (check_servers new_client (Servers c) [] (mk_St c w1 [ev_ReadFile confFile (Ok data)]))
    as [r s1] eqn:E.
  destruct (check_servers_log _ _ _ _ _ _ E) as (_ & new1 & Hl1 & Hcl1 & _).
  cbn [io_log] in Hl1.
  assert (Hall : Forall (eq new_client) (clients (io_log s1))).
  { rewrite Hl1. autorewrite with go. done. }
  eapply Forall_impl with (P := eq new_client); [|intros ? <-; by do 2 eexists].
  destruct r as [msg|e1]; [|by rewrite (bind_run_fatal _ _ _ _ _ E)].
  rewrite (bind_run_normal _ _ _ _ _ E).
  destruct (notify msg s1) as [r2 s2] eqn:E2. cbn [snd].
  destruct (notify_log _ _ _ _ E2) as (_ & new2 & -> & _ & Hcl2 & _).
  rewrite clients_app, Hcl2, app_nil_r. done.
Qed.

(** C17. The I/O log of a run that ends normally has the order of the
    code: the configuration file is read, then each configured server in
    turn gets one block (a request that failed, or a request whose
    response body is drained and then closed before the next request),
    then at most one notification, which succeeded.  No body is left
    open. *)
Theorem main_log_shape confFile w s' :
  run_main confFile w = (Normal tt, s') ->
  exists data blks tail,
    io_log s' = ev_ReadFile confFile (Ok data) :: mjoin blks ++ tail /\
    Forall2 (fun i blk => server_block new_client (get_request (UserAgent (conf s')) i) blk)
      (Servers (conf s')) blks /\
    (tail = [] \/ exists a m rc, tail = [ev_Send a m rc (Ok tt)]).
Proof.
  rewrite run_main_eq. intros H.
  destruct (os_ReadFile confFile w) as [[data|e] w1]; [|done].
  destruct (yaml_Parse data) as [doc|e]; [|done].
  destruct (yaml_Unmarshal doc zero_Config) as [c [u|e]]; [|done].
  destruct (check_servers new_client (Servers c) [] (mk_St c w1 [ev_ReadFile confFile (Ok data)]))
    as [[msg|e] s1] eqn:E; [|by rewrite (bind_run_fatal _ _ _ _ _ E) in H].
  rewrite (bind_run_normal _ _ _ _ _ E) in H.
  destruct (check_servers_blocks _ _ _ _ _ _ E) as (blks & Hl1 & Hb).
  destruct (check_servers_log _ _ _ _ _ _ E) as (Hc1 & _).
  destruct (notify_log _ _ _ _ H) as (Hc2 & new2 & Hl2 & _ & _ & _ & [[_ Htail]|(? & ? & ? & ? & _ & [=])]).
  cbn [conf io_log] in Hc1, Hl1, Hb. rewrite Hc2, Hc1.
  exists data, blks, new2. rewrite Hl2, Hl1. by split_and!.
Qed.
(** * Bounds *)

(** C27. Whatever way a run ends, it sent at most one request per
    configured server and at most one notification, and a notification
    carries between one and two entries per configured server, joined by
    ["<br>"]. *)
Theorem main_bounds confFile w r s' :
  run_main confFile w = (r, s') ->
  length (gets (io_log s')) <= length (Servers (conf s')) /\
  length (sends (io_log s')) <= 1 /\
  Forall (fun snd => exists msg, snd = notification (conf s') msg /\
            0 < length msg <= 2 * length (Servers (conf s'))) (sends (io_log s')).
Proof.
  rewrite run_main_eq.
  destruct (os_ReadFile confFile w) as [[data|e] w1]; [|intros [= <- <-]; simpl; split_and!; [lia..|constructor]].
  destruct (yaml_Parse data) as [doc|e]; [|intros [= <- <-]; simpl; split_and!; [lia..|constructor]].
  destruct (yaml_Unmarshal doc zero_Config) as [c [u|e]];
    [|intros [= <- <-]; simpl; split_and!; [lia..|constructor]].
  intros H.
  destruct (check_servers new_client (Servers c) [] (mk_St c w1 [ev_ReadFile confFile (Ok data)]))
    as [r1 s1] eqn:E.
  destruct (check_servers_bound _ _ _ _ _ _ E) as (new1 & Hl1 & Hg1 & Hm1).
  destruct (check_servers_log _ _ _ _ _ _ E) as (Hc1 & new1' & Hl1' & _ & Hs1).
  rewrite Hl1 in Hl1'. apply app_inv_head in Hl1' as <-. cbn [conf io_log] in *.
  destruct r1 as [msg|e1]; cycle 1.
  { rewrite (bind_run_fatal _ _ _ _ _ E) in H. injection H as <- <-.
    rewrite Hl1, Hc1. autorewrite with go. simpl. rewrite Hs1. split_and!; [lia|simpl; lia|constructor]. }
  rewrite (bind_run_normal _ _ _ _ _ E) in H.
  destruct (notify_log _ _ _ _ H) as (Hc2 & new2 & Hl2 & Hg2 & _ & Hs2 & _).
  specialize (Hm1 msg eq_refl). rewrite Hl2, Hl1, Hc2, Hc1. autorewrite with go.
  rewrite Hg2, Hs1, Hs2, Hc1. simpl. rewrite app_nil_r.
  case_decide as Hne; simpl.
  - split_and!; [lia|lia|constructor].
  - split_and!; [lia|lia|]. apply Forall_singleton. exists msg. split; [done|].
    destruct msg; [done|simpl in *; lia].
Qed.

(** * The process on its command line *)

(** C24. A command line made of [-config] settings in any of their
    spellings, then nothing, a positional argument or ["--"], runs [main]
    on the file of the last setting ([conf.yaml] without one): the
    process is [run_main] on that file, with its exit status. *)
Theorem run_program_config xs rest r w :
  stops_flags rest = Some r ->
  run_program (mjoin (render_arg <$> xs) ++ rest) w =
    Some (let '(e, s) := run_main (default "conf.yaml" (last (arg_value <$> xs))) w in (exit_code e, s)).
Proof.
  intros Hr. unfold run_program. rewrite define_config_CommandLine.
  destruct (flag_Parse_settings_file xs rest r Hr) as (f' & -> & Hc). rewrite Hc.
  by destruct (run_main _ w).
Qed.

(** C25. A help request on the command line ends the process with status
    0 before any I/O: no file is read, no server checked, nothing sent. *)
Theorem run_program_help xs h rest w :
  h ∈ ["-h"; "-help"; "--h"; "--help"] ->
  run_program (mjoin (render_arg <$> xs) ++ h :: rest) w = Some (0%Z, mk_St zero_Config w []).
Proof.
  intros Hh. unfold run_program. rewrite define_config_CommandLine.
  destruct (flag_Parse_settings xs (h :: rest)) as (g & Hform & _ & n & ->).
  destruct (parseOne_help g h rest Hform Hh) as (g' & Hg'). cbn [parse_loop]. by rewrite Hg'.
Qed.

(** C26. Every command line ends the process, in the way the flag
    package's verdict on it fixes: a help request ends it with status 0
    and a rejected command line with status 2 and the package's error,
    both before any I/O; a command line the package accepts runs [main]
    on the file it names, and the process exits with that run's status. *)
Theorem run_program_exit arguments w :
  exists code s, run_program arguments w = Some (code, s) /\
    ((flag_Parse arguments config_flags = Some (ExitWith 0 ErrHelp) /\
        code = 0%Z /\ s = mk_St zero_Config w []) \/
     (exists msg, flag_Parse arguments config_flags = Some (ExitWith 2 (ErrFlag msg)) /\
        code = 2%Z /\ s = mk_St zero_Config w []) \/
     (exists f', flag_Parse arguments config_flags = Some (Parsed f') /\
        code = exit_code (run_main (confFile_of f') w).1 /\ s = (run_main (confFile_of f') w).2)).
Proof.
  unfold run_program. rewrite define_config_CommandLine.
  destruct (flag_Parse_some arguments config_flags) as ([f'|code e] & Ho); rewrite Ho.
  - destruct (run_main (confFile_of f') w) as [r s] eqn:E. do 2 eexists. split; [done|].
    right; right. exists f'. by rewrite E.
  - destruct (flag_Parse_exit_code _ _ _ _ Ho) as [[-> ->]|[-> He]]; do 2 eexists; (split; [done|]).
    + by left.
    + right; left. destruct e as [|msg]; [done|]. by exists msg.
Qed.
End MainTheorems.

(** * Concrete runs *)

Section Examples.
(** The configuration of the spec's schema, with the keys [Servers],
    [URL] and [Label]. *)
Definition spec_doc : node :=
  MappingNode [("Servers", SequenceNode [MappingNode [("URL", ScalarNode strTag "https://a.example");
                                                      ("Label", ScalarNode strTag "a")]]);
               ("ua", ScalarNode strTag "uptime-bot");
               ("pushover", MappingNode [("app_token", ScalarNode strTag "T");
                                         ("recipient_token", ScalarNode strTag "R")])].

(** The same configuration with the keys the program reads. *)
Definition good_doc : node :=
  MappingNode [("servers", SequenceNode [MappingNode [("url", ScalarNode strTag "https://a.example");
                                                      ("label", ScalarNode strTag "a")];
                                         MappingNode [("url", ScalarNode strTag "https://b.example");
                                                      ("label", ScalarNode strTag "b")]]);
               ("ua", ScalarNode strTag "uptime-bot");
               ("pushover", MappingNode [("app_token", ScalarNode strTag "T");
                                         ("recipient_token", ScalarNode strTag "R")])].

(** The parser of the examples: each file holds the name of a document. *)
Definition main_parse (text : string) : result (option node) string :=
  if String.eqb text "good" then Ok (Some good_doc)
  else if String.eqb text "spec" then Ok (Some spec_doc)
  else if String.eqb text "" then Ok None
  else Err "yaml: did not find expected node content".

#[local] Instance main_rt : Runtime script := scripted main_parse ex_url_Parse.

Definition main_world (answers : list (result http_Response string))
    (copies : list (result Z string)) : script :=
  mk_script [("conf.yaml", "good"); ("spec.yaml", "spec"); ("empty.yaml", "")] answers copies [].

Definition main_w1 := main_world [Ok (ex_response "200 OK" 200); Ok (ex_response "500 Internal Server Error" 500)] [].
Definition main_run1 := run_main "conf.yaml" main_w1.

(** Server b answers 500: one notification with its two entries. *)
Lemma main_notifies_witness :
  main_run1 = (Normal tt, main_run1.2) /\
  (let c := conf main_run1.2 in
   let msg := expected_msg (zip (Servers c) (verdict_of <$> (gets (io_log main_run1.2)).*2)) in
   (gets (io_log main_run1.2)).*1 = get_request (UserAgent c) <$> Servers c /\
   sends (io_log main_run1.2) = (if decide (msg = []) then [] else [notification c msg])).
Proof. split; [reflexivity|]. apply (main_notifies "conf.yaml" main_w1). reflexivity. Defined.

(** A missing file. *)
Lemma main_config_error_witness :
  ((os_ReadFile "missing.yaml" main_w1).1 = Err "open missing.yaml: no such file or directory" \/
   (exists data, (os_ReadFile "missing.yaml" main_w1).1 = Ok data /\
      (yaml_Parse data = Err "open missing.yaml: no such file or directory" \/
       exists doc, yaml_Parse data = Ok doc /\
         (yaml_Unmarshal doc zero_Config).2 = Err "open missing.yaml: no such file or directory"))) /\
  ((run_main "missing.yaml" main_w1).1 = Fatal "open missing.yaml: no such file or directory" /\
   exit_code (run_main "missing.yaml" main_w1).1 = 1%Z /\
   gets (io_log (run_main "missing.yaml" main_w1).2) = [] /\
   sends (io_log (run_main "missing.yaml" main_w1).2) = []).
Proof.
  assert (H : (os_ReadFile "missing.yaml" main_w1).1 = Err "open missing.yaml: no such file or directory")
    by reflexivity.
  split; [by left|]. apply main_config_error. by left.
Defined.

(** Server a is down, then draining b's body fails: the run dies and
    the failure of a is never notified. *)
Definition main_w2 := main_world [Err "connection refused"; Ok (ex_response "503 Service Unavailable" 503)]
                                 [Err "unexpected EOF"].
Definition main_run2 := run_main "conf.yaml" main_w2.

Lemma main_fatal_no_delivery_witness :
  main_run2 = (Fatal "unexpected EOF", main_run2.2) /\
  (sends (io_log main_run2.2) = [] \/
   exists a m rc, sends (io_log main_run2.2) = [(a, m, rc)] /\
                  last (io_log main_run2.2) = Some (ev_Send a m rc (Err "unexpected EOF"))).
Proof. split; [reflexivity|]. apply (main_fatal_no_delivery "conf.yaml" main_w2). reflexivity. Defined.

(** An empty document lists no server. *)
Lemma main_no_servers_witness :
  os_ReadFile "empty.yaml" main_w1 = (Ok "", main_w1) /\
  yaml_Parse "" = Ok None /\
  yaml_Unmarshal None zero_Config = (zero_Config, Ok tt) /\
  Servers zero_Config = [] /\
  run_main "empty.yaml" main_w1 = (Normal tt, mk_St zero_Config main_w1 [ev_ReadFile "empty.yaml" (Ok "")]).
Proof.
  split_and!; [reflexivity ..|].
  apply (main_no_servers _ _ _ _ None _ tt); reflexivity.
Defined.

(** The spec's example configuration checks nothing. *)
Definition spec_conf : Config :=
  mk_Config [] "uptime-bot" (mk_pushoverCredential "T" "R").

Lemma main_capitalized_servers_key_witness :
  let ps := match spec_doc with MappingNode ps => ps | _ => [] end in
  os_ReadFile "spec.yaml" main_w1 = (Ok "spec", main_w1) /\
  yaml_Parse "spec" = Ok (Some (MappingNode ps)) /\
  ("servers" ∉ ps.*1) /\
  yaml_Unmarshal (Some (MappingNode ps)) zero_Config = (spec_conf, Ok tt) /\
  run_main "spec.yaml" main_w1 = (Normal tt, mk_St spec_conf main_w1 [ev_ReadFile "spec.yaml" (Ok "spec")]).
Proof.
  intros ps.
  assert (Hn : "servers" ∉ ps.*1) by (apply (bool_decide_unpack _); vm_compute; exact I).
  split_and!; [reflexivity|reflexivity|exact Hn|reflexivity|].
  apply (main_capitalized_servers_key _ _ _ _ ps _ tt); [reflexivity|reflexivity|exact Hn|reflexivity].
Defined.

Lemma main_log_shape_witness :
  main_run1 = (Normal tt, main_run1.2) /\
  exists data blks tail,
    io_log main_run1.2 = ev_ReadFile "conf.yaml" (Ok data) :: mjoin blks ++ tail /\
    Forall2 (fun i blk => server_block new_client (get_request (UserAgent (conf main_run1.2)) i) blk)
      (Servers (conf main_run1.2)) blks /\
    (tail = [] \/ exists a m rc, tail = [ev_Send a m rc (Ok tt)]).
Proof.
  assert (H : main_run1 = (Normal tt, main_run1.2)) by reflexivity.
  split; [exact H|]. exact (main_log_shape "conf.yaml" main_w1 _ H).
Defined.
(** The file named on the command line is the one read. *)
Lemma run_program_config_witness :
  stops_flags [] = Some [] /\
  run_program (mjoin (render_arg <$> [ConfigEq false "spec.yaml"]) ++ []) main_w1 =
    Some (let '(e, s) := run_main (default "conf.yaml" (last (arg_value <$> [ConfigEq false "spec.yaml"])))
                           main_w1 in (exit_code e, s)).
Proof.
  assert (H : stops_flags [] = Some []) by reflexivity.
  split; [exact H|exact (run_program_config [ConfigEq false "spec.yaml"] [] [] main_w1 H)].
Defined.

(** [-h] exits before the file is read. *)
Lemma run_program_help_witness :
  "-h" ∈ ["-h"; "-help"; "--h"; "--help"] /\
  run_program (mjoin (render_arg <$> [ConfigNext false "spec.yaml"]) ++ ["-h"]) main_w1 =
    Some (0%Z, mk_St zero_Config main_w1 []).
Proof.
  assert (H : "-h" ∈ ["-h"; "-help"; "--h"; "--help"]) by (repeat constructor).
  split; [exact H|exact (run_program_help [ConfigNext false "spec.yaml"] "-h" [] main_w1 H)].
Defined.

(** Two servers, one request each, one notification with two entries. *)
Lemma main_bounds_witness :
  run_main "conf.yaml" main_w1 = (main_run1.1, main_run1.2) /\
  length (gets (io_log main_run1.2)) <= length (Servers (conf main_run1.2)) /\
  length (sends (io_log main_run1.2)) <= 1 /\
  Forall (fun snd => exists msg, snd = notification (conf main_run1.2) msg /\
            0 < length msg <= 2 * length (Servers (conf main_run1.2))) (sends (io_log main_run1.2)).
Proof.
  assert (H : run_main "conf.yaml" main_w1 = (main_run1.1, main_run1.2)) by reflexivity.
  split; [exact H|exact (main_bounds "conf.yaml" main_w1 _ _ H)].
Defined.
End Examples.
