(* ===== verification/Machine.v ===== *)
(** * A run of [main] as a state machine

    The phases of a run of [main] (src/main.go, lines 36-83) as a step
    relation: reading the configuration file (line 40), decoding it onto
    [conf] (line 44), checking the servers one at a time (lines 56-76, one
    step per iteration of the loop body), notifying (lines 77-82), and
    exited, normally or through [log.Fatalln].  The loading steps are
    written against the [Runtime] operations directly, the loop and the
    notification steps call the loop body and the notification step of
    Checker.v and Notifier.v.

    Each rule is one call of the code, so the machine agrees with [main]
    by construction.  [step] is deterministic.  The invariant [inv] holds
    on every reachable configuration: before the loop no request was made;
    during the loop the requests made are those of the servers already
    checked, in order, and the failure list is the abstract one of their
    verdicts; no notification is sent before the exit, and at most one in
    all.  Liveness: from a reachable configuration of the loop that has
    recorded failures, every run [eventually] reaches a configuration
    where they are [reported]. *)

From Stdlib Require Import String ZArith.
From stdpp Require Import base list strings relations.
From S2P Require Import Prelude Config Runtime Checker Notifier Main.

(** The phase of a run. *)
Inductive phase :=
| Reading (confFile : string)
| Decoding (data : string)
| Checking (todo : list servers) (msg : list string)
| Notifying (msg : list string)
| Exited (r : exit unit).

Section Machine.
Context {W : Type} `{!Runtime W}.

(** A configuration: the phase and the program state. *)
Definition cfg : Type := phase * St W.

Inductive step : cfg -> cfg -> Prop :=
| step_read_err f s e w' :
    os_ReadFile f (world s) = (Err e, w') ->
    step (Reading f, s) (Exited (Fatal e), mk_St (conf s) w' (io_log s ++ [ev_ReadFile f (Err e)]))
| step_read_ok f s data w' :
    os_ReadFile f (world s) = (Ok data, w') ->
    step (Reading f, s) (Decoding data, mk_St (conf s) w' (io_log s ++ [ev_ReadFile f (Ok data)]))
| step_parse_err data s e :
    yaml_Parse data = Err e ->
    step (Decoding data, s) (Exited (Fatal e), s)
| step_decode_err data s doc c e :
    yaml_Parse data = Ok doc -> yaml_Unmarshal doc (conf s) = (c, Err e) ->
    step (Decoding data, s) (Exited (Fatal e), mk_St c (world s) (io_log s))
| step_decode_ok data s doc c u :
    yaml_Parse data = Ok doc -> yaml_Unmarshal doc (conf s) = (c, Ok u) ->
    step (Decoding data, s) (Checking (Servers c) [], mk_St c (world s) (io_log s))
| step_check i todo msg s msg' s' :
    check_server new_client i msg s = (Normal msg', s') ->
    step (Checking (i :: todo) msg, s) (Checking todo msg', s')
| step_check_fatal i todo msg s e s' :
    check_server new_client i msg s = (Fatal e, s') ->
    step (Checking (i :: todo) msg, s) (Exited (Fatal e), s')
| step_checked msg s :
    step (Checking [] msg, s) (Notifying msg, s)
| step_notify msg s r s' :
    notify msg s = (r, s') ->
    step (Notifying msg, s) (Exited r, s').

(** The start of the process: [conf] is zero, nothing is logged. *)
Definition start (confFile : string) (w : W) : cfg := (Reading confFile, mk_St zero_Config w []).


(** [eventually P c]: every run of the machine from [c] reaches a
    configuration satisfying [P] (the configuration has a step as long as
    [P] does not hold yet). *)
Inductive eventually (P : cfg -> Prop) : cfg -> Prop :=
| eventually_now c : P c -> eventually P c
| eventually_step c :
    (exists c', step c c') -> (forall c', step c c' -> eventually P c') -> eventually P c.

(** The failures [msg] are reported: the run exited through
    [log.Fatalln], or normally with exactly one notification, whose
    entries start with [msg]. *)
Definition reported (msg : list string) (c : cfg) : Prop :=
  match c.1 with
  | Exited (Fatal _) => True
  | Exited (Normal _) => exists rest, sends (io_log c.2) = [notification (conf c.2) (msg ++ rest)]
  | _ => False
  end.
End Machine.

Arguments cfg W : clear implicits.

(** * Determinism *)

Section MachineLemmas.
Context {W : Type} `{!Runtime W}.

Lemma step_det (c c1 c2 : cfg W) : step c c1 -> step c c2 -> c1 = c2.
Proof. intros H1 H2. destruct H1; inversion H2; subst; congruence. Qed.


End MachineLemmas.

(** * The invariant *)

Section Invariant.
Context {W : Type} `{!Runtime W}.

(** During the loop, with [todo] the servers left: the servers checked so
    far are a prefix of [conf.Servers], each was sent its request in order,
    the failure list is the abstract one of their verdicts, and nothing
    was notified. *)
Definition loop_inv (todo : list servers) (msg : list string) (s : St W) : Prop :=
  exists done, Servers (conf s) = done ++ todo /\
    (gets (io_log s)).*1 = get_request (UserAgent (conf s)) <$> done /\
    msg = expected_msg (zip done (verdict_of <$> (gets (io_log s)).*2)) /\
    sends (io_log s) = [].

Definition inv (c : cfg W) : Prop :=
  match c.1 with
  | Reading _ | Decoding _ => gets (io_log c.2) = [] /\ sends (io_log c.2) = []
  | Checking todo msg => loop_inv todo msg c.2
  | Notifying msg => loop_inv [] msg c.2
  | Exited _ => length (sends (io_log c.2)) <= 1
  end.

Lemma expected_msg_app l1 l2 : expected_msg (l1 ++ l2) = expected_msg l1 ++ expected_msg l2.
Proof. unfold expected_msg. by rewrite fmap_app, join_app. Qed.

(** One more server checked keeps the loop invariant. *)
Lemma loop_inv_check i todo msg s msg' s' :
  loop_inv (i :: todo) msg s ->
  check_server new_client i msg s = (Normal msg', s') ->
  loop_inv todo msg' s'.
Proof.
  intros (done & Hsrv & Hg & -> & Hs) E.
  destruct (check_server_normal _ _ _ _ _ _ E) as (Hc & r & new & Hl & (Hg1 & _ & Hs1) & ->).
  exists (done ++ [i]). rewrite Hl, Hc, Hsrv, <- app_assoc.
  autorewrite with go. rewrite Hg1, Hs1, !fmap_app, Hg, !app_nil_r. split_and!; [done|done| |done].
  assert (Hlen : length done = length (verdict_of <$> (gets (io_log s)).*2)).
  { by rewrite !length_fmap, <- (length_fmap fst), Hg, length_fmap. }
  rewrite zip_with_app by done. rewrite expected_msg_app. f_equal. unfold expected_msg. simpl. by rewrite app_nil_r.
Qed.

Lemma step_inv (c c' : cfg W) : step c c' -> inv c -> inv c'.
Proof.
  destruct 1; unfold inv; simpl; autorewrite with go.
  - intros [_ ->]. simpl. lia.
  - done.
  - intros [_ ->]. simpl. lia.
  - intros [_ ->]. simpl. lia.
  - intros [Hg Hs]. exists []. cbn [conf io_log]. rewrite Hg, Hs. done.
  - intros Hl. by eapply loop_inv_check.
  - intros (done & _ & _ & _ & Hs).
    destruct (check_server_fatal _ _ _ _ _ _ H) as (_ & new & Hl & Hcase).
    rewrite Hl, sends_app, Hs.
    destruct Hcase as [[_ ->]|(resp & (_ & _ & Hs1) & _)]; [simpl; lia|]. rewrite Hs1. simpl. lia.
  - done.
  - intros (done & _ & _ & _ & Hs).
    destruct (notify_log _ _ _ _ H) as (_ & new & -> & _ & _ & Hs1 & _).
    autorewrite with go. rewrite Hs, Hs1. case_decide; simpl; lia.
Qed.
Lemma rtc_step_inv (c c' : cfg W) : rtc step c c' -> inv c -> inv c'.
Proof. induction 1; eauto using step_inv. Qed.

Lemma inv_start confFile w : inv (start confFile w).
Proof. by split. Qed.
End Invariant.

(** * Reachable configurations *)

Section MachineTheorems.
Context {W : Type} `{!Runtime W}.

(** C16. Every configuration reachable from the start of a process
    satisfies [inv]: no request before the configuration is decoded; in
    the loop, the requests made are those of the servers already checked,
    in the order of [conf.Servers], with its user agent, and the failure
    list is the abstract one of their verdicts; no notification before
    the exit, and at most one in a whole run. *)
Theorem reachable_inv confFile w (c : cfg W) :
  rtc step (start confFile w) c -> inv c.
Proof. intros H. eapply rtc_step_inv; [exact H|apply inv_start]. Qed.
(** * Liveness *)

Lemma eventually_weaken (P Q : cfg W -> Prop) c :
  eventually P c -> (forall c', P c' -> Q c') -> eventually Q c.
Proof. induction 1; intros HPQ; [by left; apply HPQ|]. right; [done|]. intros c' Hc'. by apply H1. Qed.

(** A configuration with exactly one step eventually satisfies [P] when
    that step leads to one that does. *)
Lemma eventually_det_step (P : cfg W -> Prop) c c' :
  step c c' -> eventually P c' -> eventually P c.
Proof.
  intros Hs HP. right; [by exists c'|]. intros c'' Hs''.
  by rewrite (step_det _ _ _ Hs'' Hs).
Qed.

Lemma reported_app msg msg' (c : cfg W) : reported (msg ++ msg') c -> reported msg c.
Proof.
  unfold reported. destruct c as [[| | | |[]] s]; simpl; try done.
  intros [rest Hr]. exists (msg' ++ rest). by rewrite app_assoc.
Qed.

(** From the loop, with failures [msg] recorded and nothing notified yet,
    every run reports them. *)
Lemma checking_eventually todo msg (s : St W) :
  msg <> [] -> sends (io_log s) = [] ->
  eventually (reported msg) (Checking todo msg, s).
Proof.
  revert msg s. induction todo as [|i todo IH]; intros msg s Hne Hs.
  - apply (eventually_det_step _ _ _ (step_checked msg s)).
    destruct (notify msg s) as [r s'] eqn:E.
    apply (eventually_det_step _ _ _ (step_notify _ _ _ _ E)). left.
    destruct (notify_log _ _ _ _ E) as (Hc & new & Hl & _ & _ & Hsn & _).
    unfold reported; cbn [fst snd]. destruct r as [[]|e]; [|done].
    exists []. rewrite app_nil_r, Hl, sends_app, Hs, Hsn, Hc.
    by rewrite decide_False.
  - destruct (check_server new_client i msg s) as [[m|e] s1] eqn:E.
    + apply (eventually_det_step _ _ _ (step_check _ _ _ _ _ _ E)).
      destruct (check_server_normal _ _ _ _ _ _ E) as (_ & r & new & Hl & (_ & _ & Hs1) & ->).
      eapply eventually_weaken; [apply IH|apply reported_app].
      * by intros []%app_nil.
      * by rewrite Hl, sends_app, Hs, Hs1.
    + apply (eventually_det_step _ _ _ (step_check_fatal _ _ _ _ _ _ E)). by left.
Qed.

(** C28. Once the loop of a process has recorded a failure, the process
    eventually reports it: every run from there either dies through
    [log.Fatalln] or exits normally having sent exactly one notification,
    whose entries start with the failures recorded so far. *)
Theorem failure_eventually_reported confFile w todo msg (s : St W) :
  rtc step (start confFile w) (Checking todo msg, s) -> msg <> [] ->
  eventually (reported msg) (Checking todo msg, s).
Proof.
  intros H Hne. pose proof (rtc_step_inv _ _ H (inv_start confFile w)) as (done & _ & _ & _ & Hs).
  by apply checking_eventually.
Qed.
End MachineTheorems.

(** * A concrete run *)

Section Examples.
#[local] Instance mch_rt : Runtime script := scripted main_parse ex_url_Parse.

(** The run of Main.v in which server a is down and draining b's body
    fails: after a's check the loop holds one failure, and the run then
    dies on the drain error of b. *)
Definition mch_conf : Config := (yaml_Unmarshal (Some good_doc) zero_Config).1.
Definition mch_s1 : St script :=
  mk_St mch_conf (os_ReadFile "conf.yaml" main_w2).2 [ev_ReadFile "conf.yaml" (Ok "good")].
Definition mch_s2 : St script :=
  (check_server new_client (mk_servers "https://a.example" "a") [] mch_s1).2.
Definition mch_s3 : St script :=
  (check_server new_client (mk_servers "https://b.example" "b") ["a is seems down."] mch_s2).2.

(** The file is read and decoded, and server a is checked. *)
Lemma mch_reaches_s2 :
  rtc step (start "conf.yaml" main_w2)
    (Checking [mk_servers "https://b.example" "b"] ["a is seems down."], mch_s2).
Proof.
  eapply rtc_l; [apply step_read_ok; reflexivity|].
  eapply rtc_l; [eapply step_decode_ok; reflexivity|].
  eapply rtc_l; [apply (step_check _ _ _ _ ["a is seems down."] mch_s2); reflexivity|].
  apply rtc_refl.
Qed.

Lemma reachable_inv_witness :
  rtc step (start "conf.yaml" main_w2) (Exited (Fatal "unexpected EOF"), mch_s3) /\
  inv ((Exited (Fatal "unexpected EOF"), mch_s3) : cfg script).
Proof.
  assert (H : rtc step (start "conf.yaml" main_w2) (Exited (Fatal "unexpected EOF"), mch_s3)).
  { eapply rtc_r; [apply mch_reaches_s2|]. by apply step_check_fatal. }
  split; [exact H|]. exact (reachable_inv _ _ _ H).
Defined.

Lemma failure_eventually_reported_witness :
  rtc step (start "conf.yaml" main_w2)
    (Checking [mk_servers "https://b.example" "b"] ["a is seems down."], mch_s2) /\
  ["a is seems down."] <> [] /\
  eventually (reported ["a is seems down."])
    ((Checking [mk_servers "https://b.example" "b"] ["a is seems down."], mch_s2) : cfg script).
Proof.
  assert (Hne : ["a is seems down."] <> []) by done.
  split_and!; [exact mch_reaches_s2|exact Hne|exact (failure_eventually_reported _ _ _ _ _ mch_reaches_s2 Hne)].
Defined.
End Examples.
